(** * pdf-attachment-demo: the tracing script [simulate_logging.ts]

    A shallow embedding of the script that reads a PDF, asks a completion
    service for a summary and records the exchange as a three-node span
    tree (root, [system_prompt], [user_prompt]).

    The script's own functions ([getPdfFiles], [processPdf],
    [logSystemPrompt], [logUserPrompt], [generateSummary]) are translated
    statement by statement into a state-and-exception monad.  What the
    script imports is the environment:

    - the file system, the completion client, the working directory and
      the identifiers of the sink are the fields of a [World]; a read is
      indexed by its position among the reads of the run, so that a file
      may change while the script runs;
    - the tracing SDK keeps its span records in the state, following the
      contract of sections 4.1 and 4.2 of the specification; [export]
      produces the identifier when it is called and hands it out as a
      promise, which [await] opens;
    - the console, the reads, the requests and the span operations are
      recorded, in order, in the history of the state.

    The definitions come first; the facts start with the base64 text,
    go through the ten properties C1 to C10 and end with fifteen more,
    X1 to X15, about runs from any state, failures and the shape of a
    run. *)

From Stdlib Require Import Strings.String Strings.Ascii Strings.Byte List Arith Bool Lia.
From Stdlib Require Import DecimalString.
Import ListNotations.
Local Open Scope string_scope.


(* ===================================================================== *)
(** * Buffer: bytes and their base64 text *)
(* ===================================================================== *)

Module Base64.

(** Six bits, most significant first. *)
Definition sextet : Type := (bool * bool * bool * bool * bool * bool)%type.

Definition bit (b : bool) (w : nat) : nat := if b then w else 0.

Definition sextet_index (s : sextet) : nat :=
  let '(b5, b4, b3, b2, b1, b0) := s in
  bit b5 32 + bit b4 16 + bit b3 8 + bit b2 4 + bit b1 2 + bit b0 1.

Definition sextet_of_index (n : nat) : sextet :=
  (Nat.testbit n 5, Nat.testbit n 4, Nat.testbit n 3,
   Nat.testbit n 2, Nat.testbit n 1, Nat.testbit n 0).

(** The alphabet of RFC 4648, section 4. *)
Definition alphabet : string :=
  "ABCDEFGHIJKLMNOPQRSTUVWXYZabcdefghijklmnopqrstuvwxyz0123456789+/".

Definition pad : ascii := "="%char.

Definition b64_char (s : sextet) : ascii :=
  match String.get (sextet_index s) alphabet with
  | Some c => c
  | None => pad
  end.

Fixpoint index_of (c : ascii) (s : string) (n : nat) : option nat :=
  match s with
  | EmptyString => None
  | String d rest => if Ascii.eqb c d then Some n else index_of c rest (S n)
  end.

Definition b64_value (c : ascii) : option sextet :=
  option_map sextet_of_index (index_of c alphabet 0).

(** The three groupings of input bits into sextets.  [Byte.to_bits]
    lists a byte's bits least significant first. *)
Definition bits8 : Type :=
  (bool * (bool * (bool * (bool * (bool * (bool * (bool * bool)))))))%type.

Definition group3 (x y z : bits8) : sextet * sextet * sextet * sextet :=
  let '(x0, (x1, (x2, (x3, (x4, (x5, (x6, x7))))))) := x in
  let '(y0, (y1, (y2, (y3, (y4, (y5, (y6, y7))))))) := y in
  let '(z0, (z1, (z2, (z3, (z4, (z5, (z6, z7))))))) := z in
  ((x7, x6, x5, x4, x3, x2), (x1, x0, y7, y6, y5, y4),
   (y3, y2, y1, y0, z7, z6), (z5, z4, z3, z2, z1, z0)).

Definition group2 (x y : bits8) : sextet * sextet * sextet :=
  let '(x0, (x1, (x2, (x3, (x4, (x5, (x6, x7))))))) := x in
  let '(y0, (y1, (y2, (y3, (y4, (y5, (y6, y7))))))) := y in
  ((x7, x6, x5, x4, x3, x2), (x1, x0, y7, y6, y5, y4),
   (y3, y2, y1, y0, false, false)).

Definition group1 (x : bits8) : sextet * sextet :=
  let '(x0, (x1, (x2, (x3, (x4, (x5, (x6, x7))))))) := x in
  ((x7, x6, x5, x4, x3, x2), (x1, x0, false, false, false, false)).

Definition ungroup3 (p q r s : sextet) : bits8 * bits8 * bits8 :=
  let '(p5, p4, p3, p2, p1, p0) := p in
  let '(q5, q4, q3, q2, q1, q0) := q in
  let '(r5, r4, r3, r2, r1, r0) := r in
  let '(s5, s4, s3, s2, s1, s0) := s in
  ((q4, (q5, (p0, (p1, (p2, (p3, (p4, p5))))))),
   (r2, (r3, (r4, (r5, (q0, (q1, (q2, q3))))))),
   (s0, (s1, (s2, (s3, (s4, (s5, (r0, r1))))))))%type.

(** Modelled from the spec: [Buffer.prototype.toString('base64')] is
    Node's own code; section 4.3 describes it as the standard base64
    encoding with no line wrapping.  Three bytes give four characters,
    a final group of one or two bytes is padded with [=]. *)
Fixpoint to_base64 (bs : list byte) : string :=
  match bs with
  | [] => ""
  | [x] =>
      let '(p, q) := group1 (Byte.to_bits x) in
      String (b64_char p) (String (b64_char q) (String pad (String pad "")))
  | [x; y] =>
      let '(p, q, r) := group2 (Byte.to_bits x) (Byte.to_bits y) in
      String (b64_char p) (String (b64_char q)
        (String (b64_char r) (String pad "")))
  | x :: y :: z :: rest =>
      let '(p, q, r, s) :=
        group3 (Byte.to_bits x) (Byte.to_bits y) (Byte.to_bits z) in
      String (b64_char p) (String (b64_char q)
        (String (b64_char r) (String (b64_char s) (to_base64 rest))))
  end.

Definition zero6 : sextet := (false, false, false, false, false, false).

Definition quad (c1 c2 c3 c4 : ascii) : option (bits8 * bits8 * bits8) :=
  match b64_value c1, b64_value c2, b64_value c3, b64_value c4 with
  | Some p, Some q, Some r, Some s => Some (ungroup3 p q r s)
  | _, _, _, _ => None
  end.

Definition low4_clear (q : sextet) : bool :=
  let '(_, _, q3, q2, q1, q0) := q in negb (q3 || q2 || q1 || q0).

Definition low2_clear (r : sextet) : bool :=
  let '(_, _, _, _, r1, r0) := r in negb (r1 || r0).

(** Modelled from the spec: the [decode] of testable property 4, the
    strict decoder of RFC 4648: groups of four characters, padding only
    in the last group, unused bits of a padded group zero. *)
Fixpoint decode (s : string) : option (list byte) :=
  match s with
  | EmptyString => Some []
  | String c1 (String c2 (String c3 (String c4 rest))) =>
      if Ascii.eqb c4 pad then
        match rest with
        | EmptyString =>
            if Ascii.eqb c3 pad then
              match b64_value c1, b64_value c2 with
              | Some p, Some q =>
                  if low4_clear q then
                    let '(x, _, _) := ungroup3 p q zero6 zero6 in
                    Some [Byte.of_bits x]
                  else None
              | _, _ => None
              end
            else
              match b64_value c1, b64_value c2, b64_value c3 with
              | Some p, Some q, Some r =>
                  if low2_clear r then
                    let '(x, y, _) := ungroup3 p q r zero6 in
                    Some [Byte.of_bits x; Byte.of_bits y]
                  else None
              | _, _, _ => None
              end
        | String _ _ => None
        end
      else
        match quad c1 c2 c3 c4, decode rest with
        | Some (x, y, z), Some tl =>
            Some (Byte.of_bits x :: Byte.of_bits y :: Byte.of_bits z :: tl)
        | _, _ => None
        end
  | _ => None
  end.

(** A character of base64 text: a letter of the alphabet or the pad. *)
Definition is_b64_char (c : ascii) : bool :=
  match b64_value c with Some _ => true | None => Ascii.eqb c pad end.

Fixpoint all_chars (p : ascii -> bool) (s : string) : bool :=
  match s with
  | EmptyString => true
  | String c rest => p c && all_chars p rest
  end.

Definition is_line_break (c : ascii) : bool :=
  Ascii.eqb c "010"%char || Ascii.eqb c "013"%char.

Definition no_line_wrapping (s : string) : bool :=
  all_chars (fun c => negb (is_line_break c)) s.

End Base64.

(* ===================================================================== *)
(** * Data URLs *)
(* ===================================================================== *)

Module DataUrl.

Fixpoint strip_prefix (p s : string) : option string :=
  match p, s with
  | EmptyString, _ => Some s
  | String a p', String b s' =>
      if Ascii.eqb a b then strip_prefix p' s' else None
  | String _ _, EmptyString => None
  end.

(** Splits at the first comma: the header before it, the payload after. *)
Fixpoint split_comma (s : string) : option (string * string) :=
  match s with
  | EmptyString => None
  | String c rest =>
      if Ascii.eqb c ","%char then Some ("", rest)
      else match split_comma rest with
           | Some (h, p) => Some (String c h, p)
           | None => None
           end
  end.

Definition strip_suffix (suf s : string) : option string :=
  let n := String.length s - String.length suf in
  if String.eqb (substring n (String.length suf) s) suf
  then Some (substring 0 n s) else None.

(** A base64 data URL, [data:<mediatype>;base64,<payload>] (RFC 2397),
    parsed into its media type and the bytes of its payload. *)
Definition parse (s : string) : option (string * list byte) :=
  match strip_prefix "data:" s with
  | Some r =>
      match split_comma r with
      | Some (header, payload) =>
          match strip_suffix ";base64" header, Base64.decode payload with
          | Some mediatype, Some bytes => Some (mediatype, bytes)
          | _, _ => None
          end
      | None => None
      end
  | None => None
  end.

End DataUrl.

(* ===================================================================== *)
(** * The values the script handles *)
(* ===================================================================== *)

(** A thrown value, as far as the handler of [generateSummary] looks at
    it: [err?.response?.data]. *)
Record http_response := { resp_data : option string }.
Record js_error := { err_message : string; err_response : option http_response }.

Inductive outcome (A : Type) : Type :=
| Returns (a : A)
| Throws (e : js_error).
Arguments Returns {A} a.
Arguments Throws {A} e.

(** JavaScript truthiness of an optional string: [undefined], [null] and
    the empty string are falsy. *)
Definition truthy (v : option string) : bool :=
  match v with
  | Some s => negb (String.eqb s "")
  | None => false
  end.

(** The string inside a value known to be a truthy string. *)
Definition text_of (v : option string) : string :=
  match v with
  | Some s => s
  | None => ""
  end.

(** ** Spans and attachments (spec section 3) *)

Record Attachment := {
  att_data : list byte;
  att_filename : string;
  att_contentType : string
}.

Inductive content :=
| Text (s : string)
| File (a : Attachment).

Record message := { role : string; body : content }.

Definition metadata_map : Type := list (string * string).

Record Span := {
  span_id : nat;
  name : option string;
  kind : option string;
  parent_ref : option string;
  input : list message;
  output : option string;
  metadata : metadata_map
}.

(** The argument of [span.setAttributes]. *)
Record attributes := {
  attr_name : option string;
  attr_type : option string;
  attr_parent : option string
}.

(** The argument of [span.log]. *)
Record payload := {
  log_input : option (list message);
  log_output : option string;
  log_metadata : option metadata_map
}.

(** ** The completion service (spec section 6) *)

Inductive content_part :=
| FilePart (filename file_data : string)
| TextPart (text : string).

Inductive request_content :=
| Str (s : string)
| Parts (ps : list content_part).

Record request_message := { req_role : string; req_content : request_content }.

Record request := {
  model : string;
  messages : list request_message;
  max_tokens : nat
}.

Record choice_message := { msg_content : option string }.
Record choice := { choice_message_of : option choice_message }.
Record completion := { choices : list choice }.

(** ** The environment *)

Record World := {
  (** [process.cwd()] *)
  cwd : string;
  (** [fs.readFileSync(path)]: what the [n]-th read of the run (counted
      from 0) finds at [path]; the file system may change between reads. *)
  readFileSync : nat -> string -> outcome (list byte);
  (** [client.chat.completions.create(request)] *)
  completions_create : request -> outcome completion;
  (** the identifier string the sink hands out for the span numbered [id] *)
  export_id : nat -> string
}.

(** ** What a run leaves behind *)

Inductive level := LevelLog | LevelWarn | LevelError.

Inductive console_arg :=
| AStr (s : string)
| AErr (e : js_error).

Inductive event :=
| Console (l : level) (args : list console_arg)
| FileRead (path : string) (r : outcome (list byte))
| SpanStart (id : nat)
| SpanEnd (id : nat)
| SetAttributes (id : nat) (a : attributes)
| Exported (id : nat) (slug : string)
| Log (id : nat) (p : payload)
| Request (r : request)
| Response (r : outcome completion).

Record state := {
  spans : list Span;        (** the sink's records; a span's id is its index *)
  active : list nat;        (** the spans being traced, innermost first *)
  reads : nat;              (** how many file reads the run has made *)
  trace : list event        (** the events so far, newest first *)
}.

Definition init : state :=
  {| spans := []; active := []; reads := 0; trace := [] |}.

(** The events of a run in the order they happened. *)
Definition history (st : state) : list event := rev (trace st).

(* ===================================================================== *)
(** * The monad of the script: state, with exceptions that keep it *)
(* ===================================================================== *)

Definition M (A : Type) : Type := state -> outcome A * state.

Definition ret {A : Type} (a : A) : M A := fun st => (Returns a, st).

Definition throw {A : Type} (e : js_error) : M A := fun st => (Throws e, st).

Definition bind {A B : Type} (m : M A) (k : A -> M B) : M B :=
  fun st =>
    match m st with
    | (Returns a, st') => k a st'
    | (Throws e, st') => (Throws e, st')
    end.

(** [try { m } catch (err) { h err }] *)
Definition try_catch {A : Type} (m : M A) (h : js_error -> M A) : M A :=
  fun st =>
    match m st with
    | (Returns a, st') => (Returns a, st')
    | (Throws e, st') => h e st'
    end.

(** [try { m } finally { f }] *)
Definition try_finally {A : Type} (m : M A) (f : M unit) : M A :=
  fun st =>
    match m st with
    | (r, st') =>
        match f st' with
        | (Returns _, st'') => (r, st'')
        | (Throws e, st'') => (Throws e, st'')
        end
    end.

Declare Scope js_scope.
Delimit Scope js_scope with js.
Notation "x <- m ;; k" := (bind m (fun x => k))
  (at level 61, m at next level, right associativity) : js_scope.
Notation "m ;; k" := (bind m (fun _ => k))
  (at level 61, right associativity) : js_scope.
Local Open Scope js_scope.

Definition emit (e : event) : M unit :=
  fun st =>
    (Returns tt,
     {| spans := spans st; active := active st; reads := reads st;
        trace := e :: trace st |}).

(** ** Console *)

Definition console_log (s : string) : M unit := emit (Console LevelLog [AStr s]).
Definition console_warn (s : string) : M unit := emit (Console LevelWarn [AStr s]).
Definition console_error (args : list console_arg) : M unit :=
  emit (Console LevelError args).

(** ** [path] and [fs] *)

(** [path.join]: the segments joined by the separator.  Node also
    normalises the result ([.], [..], doubled separators); the manifest's
    names have none of these and the normalisation is left out. *)
Definition path_join (segments : list string) : string :=
  String.concat "/" segments.

Definition fs_readFileSync (W : World) (path : string) : M (list byte) :=
  fun st =>
    let r := readFileSync W (reads st) path in
    (r, {| spans := spans st; active := active st; reads := S (reads st);
           trace := FileRead path r :: trace st |}).

(** ** The completion client *)

Definition chat_completions_create (W : World) (req : request) : M completion :=
  emit (Request req) ;;
  let r := completions_create W req in
  emit (Response r) ;;
  match r with
  | Returns c => ret c
  | Throws e => throw e
  end.

(** ** The tracing SDK *)

(** Modelled from the spec: [wrapTraced], [currentSpan], [setAttributes],
    [log], [export] and [Attachment] are the SDK's code, not the
    script's.  Sections 4.1 and 4.2 give their contract: a span is
    created with a fresh identifier and empty input, output and metadata;
    [setAttributes] overwrites the fields it is given; [log] overwrites
    input and output when given and merges metadata key by key; [export]
    yields the span's identifier string. *)
Definition new_span (id : nat) : Span :=
  {| span_id := id; name := None; kind := None; parent_ref := None;
     input := []; output := None; metadata := [] |}.

Definition or_keep {A : Type} (new old : option A) : option A :=
  match new with
  | Some _ => new
  | None => old
  end.

Definition apply_attributes (a : attributes) (s : Span) : Span :=
  {| span_id := span_id s;
     name := or_keep (attr_name a) (name s);
     kind := or_keep (attr_type a) (kind s);
     parent_ref := or_keep (attr_parent a) (parent_ref s);
     input := input s; output := output s; metadata := metadata s |}.

Fixpoint assoc_set (k v : string) (m : metadata_map) : metadata_map :=
  match m with
  | [] => [(k, v)]
  | (k', v') :: rest =>
      if String.eqb k k' then (k, v) :: rest else (k', v') :: assoc_set k v rest
  end.

Fixpoint assoc_get (k : string) (m : metadata_map) : option string :=
  match m with
  | [] => None
  | (k', v) :: rest => if String.eqb k k' then Some v else assoc_get k rest
  end.

Definition merge_metadata (old new : metadata_map) : metadata_map :=
  fold_left (fun acc kv => assoc_set (fst kv) (snd kv) acc) new old.

Definition apply_payload (p : payload) (s : Span) : Span :=
  {| span_id := span_id s; name := name s; kind := kind s;
     parent_ref := parent_ref s;
     input := match log_input p with Some i => i | None => input s end;
     output := or_keep (log_output p) (output s);
     metadata := match log_metadata p with
                 | Some m => merge_metadata (metadata s) m
                 | None => metadata s
                 end |}.

Fixpoint update (id : nat) (f : Span -> Span) (l : list Span) : list Span :=
  match l, id with
  | [], _ => []
  | s :: rest, 0 => f s :: rest
  | s :: rest, S n => s :: update n f rest
  end.

Definition modify_span (id : nat) (f : Span -> Span) : M unit :=
  fun st =>
    (Returns tt,
     {| spans := update id f (spans st); active := active st;
        reads := reads st; trace := trace st |}).

(** [currentSpan()]: the innermost span being traced; outside every
    traced function the SDK answers with a span that records nothing. *)
Definition currentSpan : M (option nat) :=
  fun st => (Returns (hd_error (active st)), st).

Definition setAttributes (span : option nat) (a : attributes) : M unit :=
  match span with
  | Some id => emit (SetAttributes id a) ;; modify_span id (apply_attributes a)
  | None => ret tt
  end.

Definition log (span : option nat) (p : payload) : M unit :=
  match span with
  | Some id => emit (Log id p) ;; modify_span id (apply_payload p)
  | None => ret tt
  end.

(** A promise and the value it resolves to. *)
Inductive Promise (A : Type) : Type := ResolvesTo (a : A).
Arguments ResolvesTo {A} a.

(** [span.export()]: the identifier is produced by the call; the caller
    holds a promise of it. *)
Definition export (W : World) (span : option nat) : M (Promise string) :=
  match span with
  | Some id =>
      let slug := export_id W id in
      emit (Exported id slug) ;; ret (ResolvesTo slug)
  | None => ret (ResolvesTo "")
  end.

(** The string a promise stands for. *)
Definition resolved {A : Type} (p : Promise A) : A :=
  match p with ResolvesTo a => a end.

(** [await p] for a promise [p]. *)
Definition await {A : Type} (p : Promise A) : M A :=
  ret (resolved p).

Definition start_span : M nat :=
  fun st =>
    let id := length (spans st) in
    (Returns id,
     {| spans := spans st ++ [new_span id]; active := id :: active st;
        reads := reads st; trace := SpanStart id :: trace st |}).

Definition end_span (id : nat) : M unit :=
  fun st =>
    (Returns tt,
     {| spans := spans st; active := tl (active st); reads := reads st;
        trace := SpanEnd id :: trace st |}).

(** [wrapTraced(fn, logger)()]: [fn] runs inside a span of its own, which
    ends when [fn] returns or throws. *)
Definition wrapTraced {A : Type} (fn : M A) : M A :=
  id <- start_span ;;
  try_finally fn (end_span id).

Definition new_Attachment (data : list byte) (filename contentType : string)
  : Attachment :=
  {| att_data := data; att_filename := filename; att_contentType := contentType |}.

(** [Buffer.prototype.toString('base64')] *)
Definition toString_base64 (b : list byte) : string := Base64.to_base64 b.

(** A number in a template literal. *)
Definition show_nat (n : nat) : string :=
  NilEmpty.string_of_uint (Nat.to_uint n).

(* ===================================================================== *)
(** * The script *)
(* ===================================================================== *)

Definition SYSTEM_PROMPT : string := "
You are a financial analyst specializing in earnings call analysis. Your task is to provide a quick, bullet-point summary of the key points from earnings call transcripts.

Focus ONLY on these 3-5 key points:
• Revenue and EPS figures vs expectations
• Major business highlights or challenges
• Forward guidance for next quarter

Keep each point to 1-2 sentences maximum. Be extremely concise and focus only on the most important information.
Only output the key points, no other text.
".

(** An entry of the manifest. *)
Record file_record := { filename : string; url : string }.

(** An entry with the place of its local copy. *)
Record pdf_file := { pdf_filename : string; pdf_path : string; pdf_url : string }.

Definition pdfFiles : list file_record := [
  {| filename := "META-Q4-2024-Earnings-Call-Transcript.pdf";
     url := "https://s21.q4cdn.com/399680738/files/doc_financials/2024/q4/META-Q4-2024-Earnings-Call-Transcript.pdf" |};
  {| filename := "walmart-q4-fy25-earnings-call-transcript.pdf";
     url := "https://corporate.walmart.com/content/dam/corporate/documents/newsroom/2025/02/20/walmart-releases-q4-fy25-earnings/q4-fy25-earnings-call-transcript.pdf" |};
  {| filename := "Citi-4Q24-Earnings-Transcript.pdf";
     url := "https://www.citigroup.com/rcs/citigpa/storage/public/Earnings/Q42024/4Q24-Earnings-Transcript.pdf" |};
  {| filename := "jpmc-4q24-earnings-transcript.pdf";
     url := "https://www.jpmorganchase.com/content/dam/jpmc/jpmorgan-chase-and-co/investor-relations/documents/quarterly-earnings/2024/4th-quarter/4q24-earnings-transcript.pdf" |};
  {| filename := "adobe-a4t3greafe.pdf";
     url := "https://www.adobe.com/cc-shared/assets/investor-relations/pdfs/21305202/a4t3greafe.pdf" |};
  {| filename := "Qualcomm_Q1FY25EC_Transcript_2-5-24.pdf";
     url := "https://s204.q4cdn.com/645488518/files/doc_events/2025/Feb/05/QCOM_Q1FY25EC_Transcript_2-5-24.pdf" |};
  {| filename := "autodesk-q4-2025.pdf";
     url := "https://investors.autodesk.com/static-files/19993aff-b8f9-4d6a-9d6d-84062c13b4f8" |};
  {| filename := "homedepot-4q24-transcript.pdf";
     url := "https://ir.homedepot.com/~/media/Files/H/HomeDepot-IR/documents/hd-4q24-transcript.pdf" |}
].

(** The arrow function that [getPdfFiles] maps over the manifest. *)
Definition locate (pdfsDir : string) (file : file_record) : pdf_file :=
  {| pdf_filename := filename file;
     pdf_path := path_join [pdfsDir; filename file];
     pdf_url := url file |}.

Definition getPdfFiles (W : World) : list pdf_file :=
  let pdfsDir := path_join [cwd W; "pdfs"] in
  map (locate pdfsDir) pdfFiles.

Definition userPrompt : string := "Please analyze this earnings call transcript".

(** The [file_data] of the request: a data URL around the base64 text. *)
Definition file_data_url (base64String : string) : string :=
  "data:application/pdf;base64," ++ base64String.

(** The argument of [client.chat.completions.create] in [processPdf]. *)
Definition completion_request (pdfFile : pdf_file) (base64String : string)
  : request :=
  {| model := "gpt-4o";
     messages := [
       {| req_role := "system"; req_content := Str SYSTEM_PROMPT |};
       {| req_role := "user";
          req_content := Parts [
            FilePart (pdf_filename pdfFile) (file_data_url base64String);
            TextPart userPrompt ] |} ];
     max_tokens := 500 |}.

(** [completion.choices[0]?.message?.content] *)
Definition first_content (c : completion) : option string :=
  match nth_error (choices c) 0 with
  | Some ch =>
      match choice_message_of ch with
      | Some m => msg_content m
      | None => None
      end
  | None => None
  end.

Definition logSystemPrompt (filename url summary : string)
    (rootSpan : Promise string) : M unit :=
  let systemSpan :=
    wrapTraced (
      span <- currentSpan ;;
      parent <- await rootSpan ;;
      setAttributes span
        {| attr_name := Some "system_prompt"; attr_type := Some "llm";
           attr_parent := Some parent |} ;;
      log span
        {| log_input := Some [ {| role := "system"; body := Text SYSTEM_PROMPT |} ];
           log_output := Some summary;
           log_metadata := None |}) in
  systemSpan.

Definition logUserPrompt (W : World) (filename url userPrompt summary : string)
    (rootSpan : Promise string) (base64String : string) : M unit :=
  let userPromptSpan :=
    wrapTraced (
      span <- currentSpan ;;
      parent <- await rootSpan ;;
      setAttributes span
        {| attr_name := Some "user_prompt"; attr_type := Some "llm";
           attr_parent := Some parent |} ;;
      let pdfPath := path_join [cwd W; "pdfs"; filename] in
      pdfData <- fs_readFileSync W pdfPath ;;
      let attachment := new_Attachment pdfData filename "application/pdf" in
      log span
        {| log_input := Some [ {| role := "user"; body := Text userPrompt |};
                               {| role := "user"; body := File attachment |} ];
           log_output := Some summary;
           log_metadata := Some [ ("filename", filename); ("url", url);
                                  ("base64String", base64String) ] |}) in
  userPromptSpan.

Definition processPdf (W : World) (pdfFile : pdf_file) : M unit :=
  wrapTraced (
    console_log ("Processing " ++ pdf_filename pdfFile ++ "...") ;;
    pdfData <- fs_readFileSync W (pdf_path pdfFile) ;;
    let base64String := toString_base64 pdfData in
    rootSpan <- currentSpan ;;
    setAttributes rootSpan
      {| attr_name := Some (pdf_filename pdfFile); attr_type := None;
         attr_parent := None |} ;;
    current <- currentSpan ;;
    rootSpanSlug <- export W current ;;
    completion <- chat_completions_create W
                    (completion_request pdfFile base64String) ;;
    let summary := first_content completion in
    if negb (truthy summary) then console_warn "No summary generated"
    else
      let summary := text_of summary in
      console_log ("
Earnings Summary for " ++ pdf_filename pdfFile ++ ": Summary Created! View in the Braintrust UI}
") ;;
      log rootSpan
        {| log_input := None; log_output := Some summary; log_metadata := None |} ;;
      logSystemPrompt (pdf_filename pdfFile) (pdf_url pdfFile) summary
        rootSpanSlug ;;
      logUserPrompt W (pdf_filename pdfFile) (pdf_url pdfFile) userPrompt
        summary rootSpanSlug base64String).

(** The thrown [TypeError] of [pdfFile.filename] on [undefined]. *)
Definition undefined_record : js_error :=
  {| err_message := "Cannot read properties of undefined (reading 'filename')";
     err_response := None |}.

(** [err?.response?.data] *)
Definition response_data (err : js_error) : option string :=
  match err_response err with
  | Some r => resp_data r
  | None => None
  end.

Definition generateSummary (W : World) : M unit :=
  let pdfFiles := getPdfFiles W in
  console_log ("Found " ++ show_nat (length pdfFiles) ++ " PDFs to process") ;;
  try_catch
    (match nth_error pdfFiles 0 with
     | Some pdfFile => processPdf W pdfFile
     | None => wrapTraced (throw undefined_record)
     end)
    (fun err =>
       console_error [AStr "Error in main:"; AErr err] ;;
       if truthy (response_data err)
       then console_error [AStr "Response data:"; AStr (text_of (response_data err))]
       else ret tt).

(* ===================================================================== *)
(** * Reading a history *)
(* ===================================================================== *)

(** A state in which nothing has been traced or read, whatever was
    printed before. *)
Definition blank (t0 : list event) : state :=
  {| spans := []; active := []; reads := 0; trace := t0 |}.

(** A link is a [setAttributes] that gives a parent. *)
Definition known (child : nat) (p : string) (seen : list (nat * string)) : bool :=
  existsb (fun rs => String.eqb (snd rs) p && negb (Nat.eqb (fst rs) child)) seen.

(** Every link uses an identifier that an earlier [export] of another
    span produced; [seen] holds the exports so far. *)
Fixpoint links_follow_exports (seen : list (nat * string)) (h : list event)
  : bool :=
  match h with
  | [] => true
  | Exported root slug :: rest => links_follow_exports ((root, slug) :: seen) rest
  | SetAttributes child a :: rest =>
      match attr_parent a with
      | Some p => known child p seen && links_follow_exports seen rest
      | None => links_follow_exports seen rest
      end
  | _ :: rest => links_follow_exports seen rest
  end.

(** One thing at a time: spans open and close like a stack, every span
    operation is made on the innermost open span, and a request is
    answered before anything else happens.  [open] holds the spans not
    yet ended, innermost first. *)
Fixpoint one_at_a_time (open : list nat) (h : list event) : bool :=
  match h with
  | [] => match open with [] => true | _ :: _ => false end
  | e :: rest =>
      match e with
      | SpanStart id => one_at_a_time (id :: open) rest
      | SpanEnd id =>
          match open with
          | top :: below => Nat.eqb id top && one_at_a_time below rest
          | [] => false
          end
      | SetAttributes id _ | Log id _ | Exported id _ =>
          match open with
          | top :: _ => Nat.eqb id top && one_at_a_time open rest
          | [] => false
          end
      | Request _ =>
          match rest with
          | Response _ :: rest' => one_at_a_time open rest'
          | _ => false
          end
      | Response _ => false
      | Console _ _ | FileRead _ _ => one_at_a_time open rest
      end
  end.

Definition is_span_start (e : event) : bool :=
  match e with SpanStart _ => true | _ => false end.

Definition is_console (e : event) : bool :=
  match e with Console _ _ => true | _ => false end.

Definition is_log (e : event) : bool :=
  match e with Log _ _ => true | _ => false end.

Definition is_error_message (e : event) : bool :=
  match e with Console LevelError _ => true | _ => false end.

Definition request_of (e : event) : option request :=
  match e with Request r => Some r | _ => None end.

Definition attachment_of (m : message) : option Attachment :=
  match body m with File a => Some a | Text _ => None end.

(** The file reads of a history, each with the span that was innermost
    when it was made, the path and what was found there. *)
Fixpoint reads_in_context (open : list nat) (h : list event)
  : list (option nat * string * outcome (list byte)) :=
  match h with
  | [] => []
  | SpanStart id :: rest => reads_in_context (id :: open) rest
  | SpanEnd _ :: rest => reads_in_context (tl open) rest
  | FileRead path r :: rest =>
      (hd_error open, path, r) :: reads_in_context open rest
  | _ :: rest => reads_in_context open rest
  end.

Fixpoint collect {A B : Type} (f : A -> option B) (l : list A) : list B :=
  match l with
  | [] => []
  | x :: rest =>
      match f x with
      | Some y => y :: collect f rest
      | None => collect f rest
      end
  end.

(** The spans that have a parent. *)
Definition children (st : state) : list Span :=
  filter (fun s => match parent_ref s with Some _ => true | None => false end)
         (spans st).

(** The spans that have none. *)
Definition roots (st : state) : list Span :=
  filter (fun s => match parent_ref s with Some _ => false | None => true end)
         (spans st).

(** A span has been handed to the sink once it has ended. *)
Definition emitted (st : state) (s : Span) : Prop :=
  In s (spans st) /\ In (SpanEnd (span_id s)) (history st).

(** The local copy of a manifest entry: [<cwd>/pdfs/<filename>]. *)
Definition local_path (W : World) (file : file_record) : string :=
  path_join [cwd W; "pdfs"; filename file].

(** The entry as [getPdfFiles] hands it to [processPdf]. *)
Definition located (W : World) (file : file_record) : pdf_file :=
  locate (path_join [cwd W; "pdfs"]) file.

(* ===================================================================== *)
(** * The ways a run of [processPdf] can go *)
(* ===================================================================== *)

(** Where [logUserPrompt] looks for the file of [pdfFile]. *)
Definition attachment_path (W : World) (pdfFile : pdf_file) : string :=
  path_join [cwd W; "pdfs"; pdf_filename pdfFile].

(** The answers of the environment that decide the course of a run. *)
Inductive scenario :=
| ReadFails (e : js_error)
| CompletionFails (bs : list byte) (e : js_error)
| NoSummary (bs : list byte) (c : completion)
| AttachmentFails (bs : list byte) (c : completion) (e : js_error)
| Success (bs : list byte) (c : completion) (bs' : list byte).

Definition asked (W : World) (pdfFile : pdf_file) (bs : list byte)
  : outcome completion :=
  completions_create W (completion_request pdfFile (toString_base64 bs)).

Definition happens (W : World) (pdfFile : pdf_file) (sc : scenario) : Prop :=
  match sc with
  | ReadFails e =>
      readFileSync W 0 (pdf_path pdfFile) = Throws e
  | CompletionFails bs e =>
      readFileSync W 0 (pdf_path pdfFile) = Returns bs /\
      asked W pdfFile bs = Throws e
  | NoSummary bs c =>
      readFileSync W 0 (pdf_path pdfFile) = Returns bs /\
      asked W pdfFile bs = Returns c /\
      truthy (first_content c) = false
  | AttachmentFails bs c e =>
      readFileSync W 0 (pdf_path pdfFile) = Returns bs /\
      asked W pdfFile bs = Returns c /\
      truthy (first_content c) = true /\
      readFileSync W 1 (attachment_path W pdfFile) = Throws e
  | Success bs c bs' =>
      readFileSync W 0 (pdf_path pdfFile) = Returns bs /\
      asked W pdfFile bs = Returns c /\
      truthy (first_content c) = true /\
      readFileSync W 1 (attachment_path W pdfFile) = Returns bs'
  end.

Section Course.
Variable W : World.
Variable pdfFile : pdf_file.

Definition root_record (out : option string) : Span :=
  {| span_id := 0; name := Some (pdf_filename pdfFile); kind := None;
     parent_ref := None; input := []; output := out; metadata := [] |}.

Definition system_payload (summary : string) : payload :=
  {| log_input := Some [ {| role := "system"; body := Text SYSTEM_PROMPT |} ];
     log_output := Some summary; log_metadata := None |}.

Definition user_payload (summary base64String : string) (data : list byte)
  : payload :=
  {| log_input :=
       Some [ {| role := "user"; body := Text userPrompt |};
              {| role := "user";
                 body := File (new_Attachment data (pdf_filename pdfFile)
                                 "application/pdf") |} ];
     log_output := Some summary;
     log_metadata := Some [ ("filename", pdf_filename pdfFile);
                            ("url", pdf_url pdfFile);
                            ("base64String", base64String) ] |}.

Definition child_attributes (label : string) : attributes :=
  {| attr_name := Some label; attr_type := Some "llm";
     attr_parent := Some (export_id W 0) |}.

Definition child_record (id : nat) (label : string) (p : option payload)
  : Span :=
  let linked := apply_attributes (child_attributes label) (new_span id) in
  match p with
  | Some p => apply_payload p linked
  | None => linked
  end.

Definition opening (r : outcome (list byte)) : list event :=
  [ SpanStart 0;
    Console LevelLog [AStr ("Processing " ++ pdf_filename pdfFile ++ "...")];
    FileRead (pdf_path pdfFile) r ].

Definition asking (bs : list byte) (r : outcome completion) : list event :=
  [ SetAttributes 0
      {| attr_name := Some (pdf_filename pdfFile); attr_type := None;
         attr_parent := None |};
    Exported 0 (export_id W 0);
    Request (completion_request pdfFile (toString_base64 bs));
    Response r ].

Definition reporting (summary : string) : list event :=
  [ Console LevelLog [AStr ("
Earnings Summary for " ++ pdf_filename pdfFile ++ ": Summary Created! View in the Braintrust UI}
")];
    Log 0 {| log_input := None; log_output := Some summary;
             log_metadata := None |};
    SpanStart 1;
    SetAttributes 1 (child_attributes "system_prompt");
    Log 1 (system_payload summary);
    SpanEnd 1;
    SpanStart 2;
    SetAttributes 2 (child_attributes "user_prompt") ].

(** The events of the run, oldest first. *)
Definition events_of (sc : scenario) : list event :=
  match sc with
  | ReadFails e =>
      opening (Throws e) ++ [SpanEnd 0]
  | CompletionFails bs e =>
      opening (Returns bs) ++ asking bs (Throws e) ++ [SpanEnd 0]
  | NoSummary bs c =>
      opening (Returns bs) ++ asking bs (Returns c) ++
      [Console LevelWarn [AStr "No summary generated"]; SpanEnd 0]
  | AttachmentFails bs c e =>
      opening (Returns bs) ++ asking bs (Returns c) ++
      reporting (text_of (first_content c)) ++
      [FileRead (attachment_path W pdfFile) (Throws e); SpanEnd 2; SpanEnd 0]
  | Success bs c bs' =>
      opening (Returns bs) ++ asking bs (Returns c) ++
      reporting (text_of (first_content c)) ++
      [FileRead (attachment_path W pdfFile) (Returns bs');
       Log 2 (user_payload (text_of (first_content c)) (toString_base64 bs) bs');
       SpanEnd 2; SpanEnd 0]
  end.

(** The records the sink holds at the end. *)
Definition spans_of (sc : scenario) : list Span :=
  match sc with
  | ReadFails _ => [new_span 0]
  | CompletionFails _ _ | NoSummary _ _ => [root_record None]
  | AttachmentFails bs c _ =>
      let summary := text_of (first_content c) in
      [ root_record (Some summary);
        child_record 1 "system_prompt" (Some (system_payload summary));
        child_record 2 "user_prompt" None ]
  | Success bs c bs' =>
      let summary := text_of (first_content c) in
      [ root_record (Some summary);
        child_record 1 "system_prompt" (Some (system_payload summary));
        child_record 2 "user_prompt"
          (Some (user_payload summary (toString_base64 bs) bs')) ]
  end.

Definition reads_of (sc : scenario) : nat :=
  match sc with
  | ReadFails _ | CompletionFails _ _ | NoSummary _ _ => 1
  | AttachmentFails _ _ _ | Success _ _ _ => 2
  end.

Definition outcome_of (sc : scenario) : outcome unit :=
  match sc with
  | ReadFails e | CompletionFails _ e | AttachmentFails _ _ e => Throws e
  | NoSummary _ _ | Success _ _ _ => Returns tt
  end.

(** The state a run leaves when it started from [blank t0]. *)
Definition final (t0 : list event) (sc : scenario) : state :=
  {| spans := spans_of sc; active := []; reads := reads_of sc;
     trace := rev (events_of sc) ++ t0 |}.

End Course.

(** The first entry of the manifest, [pdfFiles[0]]. *)
Definition first_record : file_record :=
  nth 0 pdfFiles {| filename := ""; url := "" |}.

(** What the handler of [generateSummary] prints for a thrown value. *)
Definition handler_events (r : outcome unit) : list event :=
  match r with
  | Returns _ => []
  | Throws err =>
      Console LevelError [AStr "Error in main:"; AErr err] ::
      (if truthy (response_data err)
       then [Console LevelError
               [AStr "Response data:"; AStr (text_of (response_data err))]]
       else [])
  end.

Definition found_message : event :=
  Console LevelLog
    [AStr ("Found " ++ show_nat (length pdfFiles) ++ " PDFs to process")].

(** The states in which a run can end: the run of the script, or the
    processing of one file on its own. *)
Inductive is_run (W : World) : state -> Prop :=
| run_of_script : is_run W (snd (generateSummary W init))
| run_of_file (pdfFile : pdf_file) : is_run W (snd (processPdf W pdfFile init)).

(* ===================================================================== *)
(** * Environments to run the script in *)
(* ===================================================================== *)

(** The file and the reply of the end-to-end scenario of the spec. *)
Definition report : file_record :=
  {| filename := "report.pdf"; url := "https://example.com/report.pdf" |}.

(** [%PDF-1.4] *)
Definition pdf_bytes : list byte := [x25; x50; x44; x46; x2d; x31; x2e; x34].

(** [%PDF-1.7] *)
Definition newer_bytes : list byte := [x25; x50; x44; x46; x2d; x31; x2e; x37].

Definition reply (text : option string) : completion :=
  {| choices := [ {| choice_message_of := Some {| msg_content := text |} |} ] |}.

Definition bullets : string := "- Revenue beat.
- Guidance raised.".

Definition enoent : js_error :=
  {| err_message := "ENOENT: no such file or directory"; err_response := None |}.

Definition quota_exceeded : js_error :=
  {| err_message := "Request failed with status code 429";
     err_response := Some {| resp_data := Some "insufficient_quota" |} |}.

Definition world_of (fs : nat -> string -> outcome (list byte))
    (service : request -> outcome completion) : World :=
  {| cwd := "/app"; readFileSync := fs; completions_create := service;
     export_id := fun id => "span-" ++ show_nat id |}.

(** Every file is there and the service answers with the bullets. *)
Definition calm_world : World :=
  world_of (fun _ _ => Returns pdf_bytes) (fun _ => Returns (reply (Some bullets))).

(** The service answers without content. *)
Definition silent_world : World :=
  world_of (fun _ _ => Returns pdf_bytes) (fun _ => Returns (reply None)).

(** The file is rewritten between the first read and the second. *)
Definition shifting_world : World :=
  world_of (fun n _ => Returns (if Nat.eqb n 0 then pdf_bytes else newer_bytes))
           (fun _ => Returns (reply (Some bullets))).

(** There are no files. *)
Definition empty_disk_world : World :=
  world_of (fun _ _ => Throws enoent) (fun _ => Returns (reply (Some bullets))).

(** The service refuses the request. *)
Definition refusing_world : World :=
  world_of (fun _ _ => Returns pdf_bytes) (fun _ => Throws quota_exceeded).

(** The file at [path] holds [bs] whenever the run reads it. *)
Definition file_holds (W : World) (path : string) (bs : list byte) : Prop :=
  forall n, readFileSync W n path = Returns bs.

(** What an observer of a span looks at in [logSystemPrompt]'s record. *)
Definition view (s : Span) :=
  (name s, kind s, parent_ref s, input s, output s).

(** The record most recently created in the sink. *)
Definition newest (st : state) : option Span :=
  nth_error (spans st) (length (spans st) - 1).

(** The parts of the user message of a request. *)
Definition file_parts (r : request) : list content_part :=
  flat_map (fun m => match req_content m with
                     | Parts ps => ps
                     | Str _ => []
                     end) (messages r).

(* ===================================================================== *)
(** * A run that starts later *)
(* ===================================================================== *)

(** The scenarios again, for a [processPdf] that starts when the run has
    made [n] reads already. *)
Definition happens_after (W : World) (pdfFile : pdf_file) (n : nat)
    (sc : scenario) : Prop :=
  match sc with
  | ReadFails e =>
      readFileSync W n (pdf_path pdfFile) = Throws e
  | CompletionFails bs e =>
      readFileSync W n (pdf_path pdfFile) = Returns bs /\
      asked W pdfFile bs = Throws e
  | NoSummary bs c =>
      readFileSync W n (pdf_path pdfFile) = Returns bs /\
      asked W pdfFile bs = Returns c /\
      truthy (first_content c) = false
  | AttachmentFails bs c e =>
      readFileSync W n (pdf_path pdfFile) = Returns bs /\
      asked W pdfFile bs = Returns c /\
      truthy (first_content c) = true /\
      readFileSync W (S n) (attachment_path W pdfFile) = Throws e
  | Success bs c bs' =>
      readFileSync W n (pdf_path pdfFile) = Returns bs /\
      asked W pdfFile bs = Returns c /\
      truthy (first_content c) = true /\
      readFileSync W (S n) (attachment_path W pdfFile) = Returns bs'
  end.

Section CourseFrom.
Variable W : World.
Variable pdfFile : pdf_file.

(** The number of the root span: the sink holds [base] records when the
    run starts. *)
Variable base : nat.

Definition root_at (out : option string) : Span :=
  {| span_id := base; name := Some (pdf_filename pdfFile); kind := None;
     parent_ref := None; input := []; output := out; metadata := [] |}.

Definition child_at (id : nat) (label : string) (p : option payload) : Span :=
  {| span_id := id; name := Some label; kind := Some "llm";
     parent_ref := Some (export_id W base);
     input := match p with
              | Some p => match log_input p with Some i => i | None => [] end
              | None => []
              end;
     output := match p with Some p => log_output p | None => None end;
     metadata := match p with
                 | Some p => match log_metadata p with Some m => m | None => [] end
                 | None => []
                 end |}.

Definition link_to_root (label : string) : attributes :=
  {| attr_name := Some label; attr_type := Some "llm";
     attr_parent := Some (export_id W base) |}.

Definition opening_from (r : outcome (list byte)) : list event :=
  [ SpanStart base;
    Console LevelLog [AStr ("Processing " ++ pdf_filename pdfFile ++ "...")];
    FileRead (pdf_path pdfFile) r ].

Definition asking_from (bs : list byte) (r : outcome completion) : list event :=
  [ SetAttributes base
      {| attr_name := Some (pdf_filename pdfFile); attr_type := None;
         attr_parent := None |};
    Exported base (export_id W base);
    Request (completion_request pdfFile (toString_base64 bs));
    Response r ].

Definition reporting_from (summary : string) : list event :=
  [ Console LevelLog [AStr ("
Earnings Summary for " ++ pdf_filename pdfFile ++ ": Summary Created! View in the Braintrust UI}
")];
    Log base {| log_input := None; log_output := Some summary;
                log_metadata := None |};
    SpanStart (S base);
    SetAttributes (S base) (link_to_root "system_prompt");
    Log (S base) (system_payload summary);
    SpanEnd (S base);
    SpanStart (S (S base));
    SetAttributes (S (S base)) (link_to_root "user_prompt") ].

(** The events the run adds, oldest first. *)
Definition events_from (sc : scenario) : list event :=
  match sc with
  | ReadFails e =>
      opening_from (Throws e) ++ [SpanEnd base]
  | CompletionFails bs e =>
      opening_from (Returns bs) ++ asking_from bs (Throws e) ++ [SpanEnd base]
  | NoSummary bs c =>
      opening_from (Returns bs) ++ asking_from bs (Returns c) ++
      [Console LevelWarn [AStr "No summary generated"]; SpanEnd base]
  | AttachmentFails bs c e =>
      opening_from (Returns bs) ++ asking_from bs (Returns c) ++
      reporting_from (text_of (first_content c)) ++
      [FileRead (attachment_path W pdfFile) (Throws e);
       SpanEnd (S (S base)); SpanEnd base]
  | Success bs c bs' =>
      opening_from (Returns bs) ++ asking_from bs (Returns c) ++
      reporting_from (text_of (first_content c)) ++
      [FileRead (attachment_path W pdfFile) (Returns bs');
       Log (S (S base))
         (user_payload pdfFile (text_of (first_content c))
            (toString_base64 bs) bs');
       SpanEnd (S (S base)); SpanEnd base]
  end.

(** The records the run adds to the sink. *)
Definition spans_from (sc : scenario) : list Span :=
  match sc with
  | ReadFails _ => [new_span base]
  | CompletionFails _ _ | NoSummary _ _ => [root_at None]
  | AttachmentFails bs c _ =>
      let summary := text_of (first_content c) in
      [ root_at (Some summary);
        child_at (S base) "system_prompt" (Some (system_payload summary));
        child_at (S (S base)) "user_prompt" None ]
  | Success bs c bs' =>
      let summary := text_of (first_content c) in
      [ root_at (Some summary);
        child_at (S base) "system_prompt" (Some (system_payload summary));
        child_at (S (S base)) "user_prompt"
          (Some (user_payload pdfFile summary (toString_base64 bs) bs')) ]
  end.

End CourseFrom.

(** The state after a [processPdf] that started in [st]. *)
Definition continued (W : World) (pdfFile : pdf_file) (st : state)
    (sc : scenario) : state :=
  {| spans := spans st ++ spans_from W pdfFile (length (spans st)) sc;
     active := active st;
     reads := reads_of sc + reads st;
     trace := rev (events_from W pdfFile (length (spans st)) sc) ++ trace st |}.

(* ===================================================================== *)
(** * More to read in a history, more environments *)
(* ===================================================================== *)

(** The span an event is about. *)
Definition span_of_event (e : event) : option nat :=
  match e with
  | SpanStart id | SpanEnd id | SetAttributes id _ | Exported id _ | Log id _ =>
      Some id
  | Console _ _ | FileRead _ _ | Request _ | Response _ => None
  end.

Definition is_exported (e : event) : bool :=
  match e with Exported _ _ => true | _ => false end.

Definition is_file_read (e : event) : bool :=
  match e with FileRead _ _ => true | _ => false end.

Definition is_span_end (e : event) : bool :=
  match e with SpanEnd _ => true | _ => false end.

Definition is_log_of (id : nat) (e : event) : bool :=
  match e with Log id' _ => Nat.eqb id' id | _ => false end.

Definition is_attributes_of (id : nat) (e : event) : bool :=
  match e with SetAttributes id' _ => Nat.eqb id' id | _ => false end.

(** The metadata without its [url] entry. *)
Definition without_url (m : metadata_map) : metadata_map :=
  filter (fun kv => negb (String.eqb (fst kv) "url")) m.

(** A record whose [path] is not where [getPdfFiles] would put it. *)
Definition draft : pdf_file :=
  {| pdf_filename := "report.pdf"; pdf_path := "/tmp/draft.pdf";
     pdf_url := "https://example.com/report.pdf" |}.

(** The draft in [/tmp] is newer than the copy in [pdfs]. *)
Definition two_copies_world : World :=
  world_of (fun _ path => Returns (if String.eqb path "/tmp/draft.pdf"
                                   then newer_bytes else pdf_bytes))
           (fun _ => Returns (reply (Some bullets))).

(** The file is there for the first read and gone for the second. *)
Definition fading_world : World :=
  world_of (fun n _ => if Nat.eqb n 0 then Returns pdf_bytes else Throws enoent)
           (fun _ => Returns (reply (Some bullets))).

(** The same file under another address. *)
Definition mirrored : file_record :=
  {| filename := "report.pdf"; url := "https://mirror.example.org/r.pdf" |}.

(* ===================================================================== *)
(** * The cookbook's [logUserPrompt] *)
(* ===================================================================== *)

Module Cookbook.

(** [logUserPrompt] as [cookbook.md] prints it in section 2: the span is
    named and linked, then logged with the prompt as its only input. *)
Definition logUserPrompt (filename url userPrompt summary : string)
    (rootSpan : Promise string) (base64String : string) : M unit :=
  let userPromptSpan :=
    wrapTraced (
      span <- currentSpan ;;
      parent <- await rootSpan ;;
      setAttributes span
        {| attr_name := Some "user_prompt"; attr_type := Some "llm";
           attr_parent := Some parent |} ;;
      log span
        {| log_input := Some [ {| role := "user"; body := Text userPrompt |} ];
           log_output := Some summary;
           log_metadata := Some [ ("filename", filename); ("url", url);
                                  ("base64String", base64String) ] |}) in
  userPromptSpan.

End Cookbook.

(* ===================================================================== *)
(** * Where a run can fail *)
(* ===================================================================== *)

(** The read in [processPdf] throws [e], or it returns and the completion
    call throws [e]. *)
Definition fails_early (W : World) (file : file_record) (e : js_error) : Prop :=
  readFileSync W 0 (local_path W file) = Throws e \/
  exists bs, readFileSync W 0 (local_path W file) = Returns bs /\
             asked W (located W file) bs = Throws e.

(** The read in [processPdf] returns, the completion has text, and the
    read of the same file in [logUserPrompt] throws [e]. *)
Definition fails_late (W : World) (file : file_record) (e : js_error) : Prop :=
  exists bs c,
    readFileSync W 0 (local_path W file) = Returns bs /\
    asked W (located W file) bs = Returns c /\
    truthy (first_content c) = true /\
    readFileSync W 1 (local_path W file) = Throws e.

(* ===================================================================== *)
(** * Facts about the base64 text *)
(* ===================================================================== *)

Module Base64Facts.
Import Base64.

Ltac each_sextet s :=
  destruct s as [[[[[[] []] []] []] []] []].

Lemma value_of_char (s : sextet) : b64_value (b64_char s) = Some s.
Proof. each_sextet s; reflexivity. Qed.

Lemma char_is_not_pad (s : sextet) : Ascii.eqb (b64_char s) pad = false.
Proof. each_sextet s; reflexivity. Qed.

Lemma char_is_no_line_break (s : sextet) : is_line_break (b64_char s) = false.
Proof. each_sextet s; reflexivity. Qed.

Lemma char_is_b64 (s : sextet) : is_b64_char (b64_char s) = true.
Proof. unfold is_b64_char. now rewrite value_of_char. Qed.

(** Lists three elements at a time, the way the encoder walks them. *)
Lemma by_threes (A : Type) (P : list A -> Prop) :
  P [] ->
  (forall x, P [x]) ->
  (forall x y, P [x; y]) ->
  (forall x y z rest, P rest -> P (x :: y :: z :: rest)) ->
  forall l, P l.
Proof.
  intros H0 H1 H2 H3.
  fix IH 1.
  intros [|x [|y [|z rest]]].
  - exact H0.
  - apply H1.
  - apply H2.
  - apply H3, IH.
Qed.

(** Names the eight bits of a byte. *)
Ltac bits_of x :=
  rewrite <- (Byte.of_bits_to_bits x);
  destruct (Byte.to_bits x) as [? [? [? [? [? [? [? ?]]]]]]].

Lemma to_base64_threes (x y z : byte) (rest : list byte) :
  to_base64 (x :: y :: z :: rest) = to_base64 [x; y; z] ++ to_base64 rest.
Proof.
  cbn [to_base64].
  destruct (group3 (to_bits x) (to_bits y) (to_bits z)) as [[[p q] r] s].
  reflexivity.
Qed.

Lemma decode_group3 (x y z : byte) (rest : string) :
  decode (to_base64 [x; y; z] ++ rest) =
  match decode rest with
  | Some tl => Some (x :: y :: z :: tl)
  | None => None
  end.
Proof.
  bits_of x; bits_of y; bits_of z.
  cbn [to_base64]. rewrite !Byte.to_bits_of_bits.
  cbn [group3 append decode].
  rewrite char_is_not_pad.
  unfold quad. rewrite !value_of_char.
  reflexivity.
Qed.

Lemma decode_to_base64 (bs : list byte) : decode (to_base64 bs) = Some bs.
Proof.
  induction bs as [| x | x y | x y z rest IH] using by_threes.
  - reflexivity.
  - bits_of x. cbn [to_base64]. rewrite !Byte.to_bits_of_bits.
    cbn [group1 decode].
    change (Ascii.eqb pad pad) with true. cbv iota.
    rewrite !value_of_char. reflexivity.
  - bits_of x; bits_of y. cbn [to_base64]. rewrite !Byte.to_bits_of_bits.
    cbn [group2 decode].
    change (Ascii.eqb pad pad) with true. cbv iota.
    rewrite char_is_not_pad, !value_of_char.
    reflexivity.
  - rewrite to_base64_threes, decode_group3, IH. reflexivity.
Qed.

Lemma all_chars_app (p : ascii -> bool) (s t : string) :
  all_chars p (s ++ t) = all_chars p s && all_chars p t.
Proof.
  induction s as [|c s IH]; cbn [append all_chars].
  - reflexivity.
  - now rewrite IH, andb_assoc.
Qed.

(** A property of characters that the alphabet and the pad have holds
    of every character of the encoding. *)
Lemma to_base64_all (p : ascii -> bool) :
  (forall s, p (b64_char s) = true) -> p pad = true ->
  forall bs, all_chars p (to_base64 bs) = true.
Proof.
  intros Hc Hp bs.
  induction bs as [| x | x y | x y z rest IH] using by_threes.
  - reflexivity.
  - cbn [to_base64]. destruct (group1 (to_bits x)) as [? ?].
    cbn [all_chars]. now rewrite !Hc, Hp.
  - cbn [to_base64]. destruct (group2 (to_bits x) (to_bits y)) as [[? ?] ?].
    cbn [all_chars]. now rewrite !Hc, Hp.
  - cbn [to_base64].
    destruct (group3 (to_bits x) (to_bits y) (to_bits z)) as [[[? ?] ?] ?].
    cbn [all_chars]. now rewrite !Hc, IH.
Qed.

Lemma to_base64_unwrapped (bs : list byte) :
  no_line_wrapping (to_base64 bs) = true.
Proof.
  apply to_base64_all.
  - intros s. now rewrite char_is_no_line_break.
  - reflexivity.
Qed.

Lemma to_base64_alphabet (bs : list byte) :
  all_chars is_b64_char (to_base64 bs) = true.
Proof.
  apply to_base64_all.
  - apply char_is_b64.
  - reflexivity.
Qed.

Lemma to_base64_length (bs : list byte) :
  String.length (to_base64 bs) = 4 * ((List.length bs + 2) / 3).
Proof.
  induction bs as [| x | x y | x y z rest IH] using by_threes.
  - reflexivity.
  - cbn [to_base64]. now destruct (group1 (to_bits x)).
  - cbn [to_base64]. now destruct (group2 (to_bits x) (to_bits y)) as [[? ?] ?].
  - cbn [to_base64].
    destruct (group3 (to_bits x) (to_bits y) (to_bits z)) as [[[? ?] ?] ?].
    cbn [String.length List.length]. rewrite IH.
    replace (S (S (S (List.length rest))) + 2)
      with ((List.length rest + 2) + 1 * 3) by lia.
    rewrite Nat.div_add by discriminate. lia.
Qed.

End Base64Facts.

(* ===================================================================== *)
(** * Paths *)
(* ===================================================================== *)

Lemma append_assoc (a b c : string) : (a ++ b) ++ c = a ++ b ++ c.
Proof.
  induction a as [|x a IH]; cbn [append].
  - reflexivity.
  - now rewrite IH.
Qed.

Lemma append_cancel_l (a b c : string) : a ++ b = a ++ c -> b = c.
Proof.
  induction a as [|x a IH]; cbn [append]; intros H.
  - exact H.
  - injection H as H. now apply IH.
Qed.

(** [getPdfFiles] joins in two steps what [logUserPrompt] joins in one;
    the place is the same. *)
Lemma located_path (W : World) (file : file_record) :
  pdf_path (located W file) = local_path W file.
Proof.
  unfold located, locate, local_path, path_join.
  cbn [pdf_path String.concat].
  now rewrite append_assoc.
Qed.

Lemma attachment_path_located (W : World) (file : file_record) :
  attachment_path W (located W file) = local_path W file.
Proof. reflexivity. Qed.

Lemma local_path_inj (W : World) (f g : file_record) :
  local_path W f = local_path W g -> filename f = filename g.
Proof.
  unfold local_path, path_join. cbn [String.concat].
  intros H. apply append_cancel_l in H.
  now injection H.
Qed.

Lemma first_of_manifest (W : World) :
  nth_error (getPdfFiles W) 0 = Some (located W first_record).
Proof. reflexivity. Qed.

(* ===================================================================== *)
(** * Running the script *)
(* ===================================================================== *)

(** Unfolds the script and the monad down to the answers of the
    environment. *)
Ltac run_script :=
  cbv [processPdf logSystemPrompt logUserPrompt wrapTraced try_finally
       try_catch bind ret throw emit console_log console_warn console_error
       fs_readFileSync chat_completions_create setAttributes log export
       await resolved start_span end_span currentSpan modify_span blank init
       spans active reads trace hd_error tl length app update negb].

Section Runs.
Variable W : World.
Variable pdfFile : pdf_file.

(** The program does what the scenario says. *)
Lemma processPdf_run (t0 : list event) (sc : scenario) :
  happens W pdfFile sc ->
  processPdf W pdfFile (blank t0) = (outcome_of sc, final W pdfFile t0 sc).
Proof.
  destruct sc; cbn [happens]; intros H.
  - run_script. rewrite H. reflexivity.
  - destruct H as [H1 H2]. run_script. rewrite H1. run_script.
    unfold asked in H2. rewrite H2. reflexivity.
  - destruct H as (H1 & H2 & H3). run_script. rewrite H1. run_script.
    unfold asked in H2. rewrite H2. run_script. rewrite H3. reflexivity.
  - destruct H as (H1 & H2 & H3 & H4). run_script. rewrite H1. run_script.
    unfold asked in H2. rewrite H2. run_script. rewrite H3. run_script.
    fold (attachment_path W pdfFile). rewrite H4. reflexivity.
  - destruct H as (H1 & H2 & H3 & H4). run_script. rewrite H1. run_script.
    unfold asked in H2. rewrite H2. run_script. rewrite H3. run_script.
    fold (attachment_path W pdfFile). rewrite H4. reflexivity.
Qed.

(** Every environment puts the run in one of the scenarios. *)
Lemma some_scenario : exists sc, happens W pdfFile sc.
Proof.
  destruct (readFileSync W 0 (pdf_path pdfFile)) as [bs|e] eqn:H1.
  2: { now exists (ReadFails e). }
  destruct (asked W pdfFile bs) as [c|e] eqn:H2.
  2: { now exists (CompletionFails bs e). }
  destruct (truthy (first_content c)) eqn:H3.
  2: { now exists (NoSummary bs c). }
  destruct (readFileSync W 1 (attachment_path W pdfFile)) as [bs'|e] eqn:H4.
  - now exists (Success bs c bs').
  - now exists (AttachmentFails bs c e).
Qed.

Lemma processPdf_init (sc : scenario) :
  happens W pdfFile sc ->
  processPdf W pdfFile init = (outcome_of sc, final W pdfFile [] sc).
Proof. apply (processPdf_run []). Qed.

Lemma history_final (t0 : list event) (sc : scenario) :
  history (final W pdfFile t0 sc) = (rev t0 ++ events_of W pdfFile sc)%list.
Proof.
  unfold history, final. cbn [trace].
  now rewrite rev_app_distr, rev_involutive.
Qed.

End Runs.

(** The whole run: the count of the manifest, one [processPdf] on its
    first entry, and what the handler prints if that threw. *)
Lemma generateSummary_run (W : World) (sc : scenario) :
  happens W (located W first_record) sc ->
  generateSummary W init =
  (Returns tt,
   {| spans := spans_of W (located W first_record) sc;
      active := [];
      reads := reads_of sc;
      trace := rev (handler_events (outcome_of sc)) ++
               rev (events_of W (located W first_record) sc) ++
               [found_message] |}).
Proof.
  intros H.
  unfold generateSummary.
  rewrite first_of_manifest.
  unfold bind at 1. unfold console_log at 1. unfold emit at 1.
  cbv [init spans active reads trace].
  change {| spans := []; active := []; reads := 0;
            trace := [Console LevelLog
              [AStr ("Found " ++ show_nat (length (getPdfFiles W)) ++
                     " PDFs to process")]] |}
    with (blank [found_message]).
  unfold try_catch.
  rewrite (processPdf_run _ _ [found_message] _ H).
  destruct (outcome_of sc) as [[]|err]; cbn [handler_events rev app].
  - reflexivity.
  - cbv [bind console_error emit final spans active reads trace].
    destruct (truthy (response_data err)); reflexivity.
Qed.

Lemma history_generateSummary (W : World) (sc : scenario) :
  happens W (located W first_record) sc ->
  history (snd (generateSummary W init)) =
  (found_message :: events_of W (located W first_record) sc ++
   handler_events (outcome_of sc))%list.
Proof.
  intros H. rewrite (generateSummary_run _ _ H).
  unfold history. cbn [snd trace].
  rewrite !rev_app_distr, !rev_involutive.
  reflexivity.
Qed.

(** ** Two runs written out *)

(** The end-to-end scenario: [report.pdf] holds [%PDF-1.4], the service
    answers with two bullets. *)
Example end_to_end_scenario :
  let st := snd (processPdf calm_world (located calm_world report) init) in
  map (fun s => (span_id s, name s, parent_ref s, output s)) (spans st) =
    [ (0, Some "report.pdf", None, Some bullets);
      (1, Some "system_prompt", Some "span-0", Some bullets);
      (2, Some "user_prompt", Some "span-0", Some bullets) ] /\
  map metadata (spans st) =
    [ []; [];
      [ ("filename", "report.pdf"); ("url", "https://example.com/report.pdf");
        ("base64String", "JVBERi0xLjQ=") ] ].
Proof. vm_compute. split; reflexivity. Qed.

(** The script on a disk without files. *)
Example run_without_files :
  history (snd (generateSummary empty_disk_world init)) =
  [ Console LevelLog [AStr "Found 8 PDFs to process"];
    SpanStart 0;
    Console LevelLog
      [AStr "Processing META-Q4-2024-Earnings-Call-Transcript.pdf..."];
    FileRead "/app/pdfs/META-Q4-2024-Earnings-Call-Transcript.pdf"
      (Throws enoent);
    SpanEnd 0;
    Console LevelError [AStr "Error in main:"; AErr enoent] ].
Proof. vm_compute. reflexivity. Qed.

(* ===================================================================== *)
(** * The encoding of the file (C7) *)
(* ===================================================================== *)

Lemma parse_file_data_url (bs : list byte) :
  DataUrl.parse (file_data_url (toString_base64 bs)) =
  Some ("application/pdf", bs).
Proof.
  unfold DataUrl.parse, file_data_url, toString_base64.
  cbn [append DataUrl.strip_prefix DataUrl.split_comma Ascii.eqb Bool.eqb].
  change (DataUrl.strip_suffix ";base64" "application/pdf;base64")
    with (Some "application/pdf").
  now rewrite Base64Facts.decode_to_base64.
Qed.

(** C7.  The text that [processPdf] makes of the file's bytes is standard
    base64 without line breaks: decoding it gives the bytes back, for the
    empty sequence as for any other; it has four characters of the
    alphabet or the pad for every three bytes begun; and behind
    [data:application/pdf;base64,], as the request carries it, it is a
    data URL whose payload is those bytes. *)
Theorem base64_text_round_trips (bs : list byte) :
  Base64.decode (toString_base64 bs) = Some bs /\
  toString_base64 [] = "" /\
  Base64.no_line_wrapping (toString_base64 bs) = true /\
  Base64.all_chars Base64.is_b64_char (toString_base64 bs) = true /\
  String.length (toString_base64 bs) = 4 * ((length bs + 2) / 3) /\
  file_data_url (toString_base64 bs) =
    "data:application/pdf;base64," ++ toString_base64 bs /\
  DataUrl.parse (file_data_url (toString_base64 bs)) =
    Some ("application/pdf", bs) /\
  forall pdfFile,
    file_parts (completion_request pdfFile (toString_base64 bs)) =
    [ FilePart (pdf_filename pdfFile) (file_data_url (toString_base64 bs));
      TextPart userPrompt ].
Proof.
  repeat split.
  - apply Base64Facts.decode_to_base64.
  - apply Base64Facts.to_base64_unwrapped.
  - apply Base64Facts.to_base64_alphabet.
  - apply Base64Facts.to_base64_length.
  - apply parse_file_data_url.
Qed.

(* ===================================================================== *)
(** * From the local copy of a record to a scenario *)
(* ===================================================================== *)

Section PerFile.
Variable W : World.
Variable file : file_record.

Lemma happens_read_fails e :
  readFileSync W 0 (local_path W file) = Throws e ->
  happens W (located W file) (ReadFails e).
Proof. intros H. cbn [happens]. now rewrite located_path. Qed.

Lemma happens_completion_fails bs e :
  readFileSync W 0 (local_path W file) = Returns bs ->
  asked W (located W file) bs = Throws e ->
  happens W (located W file) (CompletionFails bs e).
Proof. intros H1 H2. cbn [happens]. now rewrite located_path. Qed.

Lemma happens_no_summary bs c :
  readFileSync W 0 (local_path W file) = Returns bs ->
  asked W (located W file) bs = Returns c ->
  truthy (first_content c) = false ->
  happens W (located W file) (NoSummary bs c).
Proof. intros H1 H2 H3. cbn [happens]. now rewrite located_path. Qed.

Lemma happens_attachment_fails bs c e :
  readFileSync W 0 (local_path W file) = Returns bs ->
  asked W (located W file) bs = Returns c ->
  truthy (first_content c) = true ->
  readFileSync W 1 (local_path W file) = Throws e ->
  happens W (located W file) (AttachmentFails bs c e).
Proof. intros H1 H2 H3 H4. cbn [happens]. now rewrite located_path. Qed.

Lemma happens_success bs c bs' :
  readFileSync W 0 (local_path W file) = Returns bs ->
  asked W (located W file) bs = Returns c ->
  truthy (first_content c) = true ->
  readFileSync W 1 (local_path W file) = Returns bs' ->
  happens W (located W file) (Success bs c bs').
Proof. intros H1 H2 H3 H4. cbn [happens]. now rewrite located_path. Qed.
End PerFile.

(** Finds an element in a list that is written out. *)
Ltac pick := cbn; repeat (first [left; reflexivity | right]); fail.

(* ===================================================================== *)
(** * The spans of a processed file (C1, C4, C8) *)
(* ===================================================================== *)

(** C1.  For every file record whose file holds [bs] and whose completion
    has text, [processPdf] returns and has emitted a child span named
    [user_prompt]: its parent is the identifier exported for the one root
    span, its metadata has [filename], [url] and [base64String] (the
    record's name, the record's url, the base64 text of [bs]), and its
    input has an attachment of type [application/pdf] whose data is
    [bs]. *)
Theorem user_prompt_span_emitted (W : World) (file : file_record)
    (bs : list byte) (c : completion) :
  file_holds W (local_path W file) bs ->
  asked W (located W file) bs = Returns c ->
  truthy (first_content c) = true ->
  exists st root child attachment,
    processPdf W (located W file) init = (Returns tt, st) /\
    roots st = [root] /\
    In (Exported (span_id root) (export_id W (span_id root))) (history st) /\
    emitted st child /\
    name child = Some "user_prompt" /\
    parent_ref child = Some (export_id W (span_id root)) /\
    assoc_get "filename" (metadata child) = Some (filename file) /\
    assoc_get "url" (metadata child) = Some (url file) /\
    assoc_get "base64String" (metadata child) = Some (Base64.to_base64 bs) /\
    In {| role := "user"; body := File attachment |} (input child) /\
    att_contentType attachment = "application/pdf" /\
    att_data attachment = bs /\
    (forall s, In s (children st) -> name s = Some "user_prompt" -> s = child).
Proof.
  intros Hfile Hc Ht.
  pose proof (happens_success W file bs c bs (Hfile 0) Hc Ht (Hfile 1)) as Hsc.
  eexists _, _, _, _.
  split; [exact (processPdf_init _ _ _ Hsc)|].
  split; [reflexivity|].
  split; [pick|].
  split. { split; [cbn [final spans spans_of]; right; right; left; reflexivity | pick]. }
  repeat (split; [reflexivity|]).
  split. { cbn. right. left. reflexivity. }
  repeat (split; [reflexivity|]).
  cbn. intros s [<-|[<-|[]]]; cbn; intros E; try discriminate; reflexivity.
Qed.

Lemma user_prompt_span_emitted_witness :
  file_holds calm_world (local_path calm_world report) pdf_bytes /\
  exists st root child attachment,
    processPdf calm_world (located calm_world report) init = (Returns tt, st) /\
    roots st = [root] /\
    In (Exported (span_id root) (export_id calm_world (span_id root)))
       (history st) /\
    emitted st child /\
    name child = Some "user_prompt" /\
    parent_ref child = Some (export_id calm_world (span_id root)) /\
    assoc_get "filename" (metadata child) = Some "report.pdf" /\
    assoc_get "url" (metadata child) = Some "https://example.com/report.pdf" /\
    assoc_get "base64String" (metadata child) = Some "JVBERi0xLjQ=" /\
    In {| role := "user"; body := File attachment |} (input child) /\
    att_contentType attachment = "application/pdf" /\
    att_data attachment = pdf_bytes /\
    (forall s, In s (children st) -> name s = Some "user_prompt" -> s = child).
Proof.
  split.
  - intros n. reflexivity.
  - apply (user_prompt_span_emitted calm_world report pdf_bytes
             (reply (Some bullets))).
    + intros n. reflexivity.
    + reflexivity.
    + reflexivity.
Defined.

Lemma truthy_text (v : option string) (text : string) :
  v = Some text -> text <> "" -> truthy v = true /\ text_of v = text.
Proof.
  intros -> H. cbn [truthy text_of].
  apply String.eqb_neq in H. now rewrite H.
Qed.

(** C4.  For every file record whose file can be read and whose
    completion has the non-empty text [text], the run leaves exactly one
    root span, named after the file and with [text] as its output, and
    one child named [system_prompt] whose parent is the identifier
    exported for the root, whose input holds the system instruction and
    whose output is [text]. *)
Theorem root_and_system_prompt_spans (W : World) (file : file_record)
    (bs : list byte) (c : completion) (text : string) :
  readFileSync W 0 (local_path W file) = Returns bs ->
  asked W (located W file) bs = Returns c ->
  first_content c = Some text ->
  text <> "" ->
  exists r st root system,
    processPdf W (located W file) init = (r, st) /\
    roots st = [root] /\
    emitted st root /\
    name root = Some (filename file) /\
    output root = Some text /\
    In (Exported (span_id root) (export_id W (span_id root))) (history st) /\
    emitted st system /\
    name system = Some "system_prompt" /\
    parent_ref system = Some (export_id W (span_id root)) /\
    In {| role := "system"; body := Text SYSTEM_PROMPT |} (input system) /\
    output system = Some text /\
    (forall s, In s (children st) -> name s = Some "system_prompt" -> s = system).
Proof.
  intros Hread Hc Hfirst Htext.
  destruct (truthy_text _ _ Hfirst Htext) as [Ht Hout].
  assert (exists sc,
             happens W (located W file) sc /\
             (exists e, sc = AttachmentFails bs c e) \/
             happens W (located W file) sc /\
             (exists bs', sc = Success bs c bs')) as [sc Hsc].
  { destruct (readFileSync W 1 (local_path W file)) as [bs'|e] eqn:Hagain.
    - exists (Success bs c bs'). right. split; [|now exists bs'].
      now apply happens_success.
    - exists (AttachmentFails bs c e). left. split; [|now exists e].
      now apply happens_attachment_fails. }
  destruct Hsc as [[Hsc [e ->]]|[Hsc [bs' ->]]];
    (eexists _, _, _, _;
     split; [exact (processPdf_init _ _ _ Hsc)|];
     split; [reflexivity|];
     split; [split; [left; reflexivity | pick]|];
     split; [reflexivity|];
     split; [cbn; now rewrite Hout|];
     split; [pick|];
     split; [split; [right; left; reflexivity | pick]|];
     split; [reflexivity|];
     split; [reflexivity|];
     split; [left; reflexivity|];
     split; [cbn; now rewrite Hout|];
     cbn; intros s [<-|[<-|[]]]; cbn; intros E; try discriminate; reflexivity).
Qed.

Lemma root_and_system_prompt_spans_witness :
  exists r st root system,
    processPdf calm_world (located calm_world report) init = (r, st) /\
    roots st = [root] /\
    emitted st root /\
    name root = Some "report.pdf" /\
    output root = Some bullets /\
    In (Exported (span_id root) (export_id calm_world (span_id root)))
       (history st) /\
    emitted st system /\
    name system = Some "system_prompt" /\
    parent_ref system = Some (export_id calm_world (span_id root)) /\
    In {| role := "system"; body := Text SYSTEM_PROMPT |} (input system) /\
    output system = Some bullets /\
    (forall s, In s (children st) -> name s = Some "system_prompt" -> s = system).
Proof.
  apply (root_and_system_prompt_spans calm_world report pdf_bytes
           (reply (Some bullets)) bullets).
  - reflexivity.
  - reflexivity.
  - reflexivity.
  - discriminate.
Defined.

(** C8.  The file is read twice: by [processPdf], in the root span, for
    the base64 text that goes into the request and the metadata, and
    again by [logUserPrompt], in the [user_prompt] span, for the
    attachment.  The attachment holds what the second read found; it
    holds the bytes whose base64 text is in the metadata exactly when the
    two reads found the same. *)
Theorem file_is_read_twice (W : World) (file : file_record)
    (bs bs' : list byte) (c : completion) :
  readFileSync W 0 (local_path W file) = Returns bs ->
  asked W (located W file) bs = Returns c ->
  truthy (first_content c) = true ->
  readFileSync W 1 (local_path W file) = Returns bs' ->
  exists st user attachment,
    processPdf W (located W file) init = (Returns tt, st) /\
    reads_in_context [] (history st) =
      [ (Some 0, local_path W file, Returns bs);
        (Some 2, local_path W file, Returns bs') ] /\
    collect request_of (history st) =
      [ completion_request (located W file) (toString_base64 bs) ] /\
    nth_error (spans st) 2 = Some user /\
    name user = Some "user_prompt" /\
    assoc_get "base64String" (metadata user) = Some (toString_base64 bs) /\
    collect attachment_of (input user) = [attachment] /\
    att_data attachment = bs' /\
    (att_data attachment = bs <-> bs' = bs).
Proof.
  intros Hread Hc Ht Hagain.
  pose proof (happens_success W file bs c bs' Hread Hc Ht Hagain) as Hsc.
  eexists _, _, _.
  split; [exact (processPdf_init _ _ _ Hsc)|].
  split.
  { rewrite history_final. cbn [rev app events_of opening asking reporting].
    cbn [reads_in_context hd_error tl].
    now rewrite located_path. }
  repeat (split; [reflexivity|]).
  cbn. split; intros E; now subst.
Qed.

Lemma file_is_read_twice_witness :
  exists st user attachment,
    processPdf shifting_world (located shifting_world report) init =
      (Returns tt, st) /\
    reads_in_context [] (history st) =
      [ (Some 0, "/app/pdfs/report.pdf", Returns pdf_bytes);
        (Some 2, "/app/pdfs/report.pdf", Returns newer_bytes) ] /\
    collect request_of (history st) =
      [ completion_request (located shifting_world report)
          (toString_base64 pdf_bytes) ] /\
    nth_error (spans st) 2 = Some user /\
    name user = Some "user_prompt" /\
    assoc_get "base64String" (metadata user) = Some "JVBERi0xLjQ=" /\
    collect attachment_of (input user) = [attachment] /\
    att_data attachment = newer_bytes /\
    (att_data attachment = pdf_bytes <-> newer_bytes = pdf_bytes).
Proof.
  apply (file_is_read_twice shifting_world report pdf_bytes newer_bytes
           (reply (Some bullets))); reflexivity.
Defined.

(** In a world where the file changes between the reads the attachment
    and the base64 text of the metadata are of different bytes. *)
Example attachment_differs_when_file_changes :
  exists st user attachment,
    processPdf shifting_world (located shifting_world report) init =
      (Returns tt, st) /\
    nth_error (spans st) 2 = Some user /\
    collect attachment_of (input user) = [attachment] /\
    assoc_get "base64String" (metadata user) = Some (toString_base64 pdf_bytes) /\
    toString_base64 (att_data attachment) <> toString_base64 pdf_bytes.
Proof.
  assert (happens shifting_world (located shifting_world report)
            (Success pdf_bytes (reply (Some bullets)) newer_bytes)) as Hsc.
  { repeat split. }
  eexists _, _, _.
  split; [exact (processPdf_init _ _ _ Hsc)|].
  repeat (split; [reflexivity|]).
  vm_compute. discriminate.
Qed.

(* ===================================================================== *)
(** * A completion without content (C2, C9) *)
(* ===================================================================== *)

(** C2.  For every file record whose completion has no content
    ([undefined], [null] or the empty string) [processPdf] prints the
    warning and returns without throwing; the sink holds the root span
    alone, no child span was started, and in a run of [generateSummary]
    on that record the handler prints nothing. *)
Theorem empty_completion_short_circuit (W : World) (file : file_record)
    (bs : list byte) (c : completion) :
  readFileSync W 0 (local_path W file) = Returns bs ->
  asked W (located W file) bs = Returns c ->
  truthy (first_content c) = false ->
  exists st,
    processPdf W (located W file) init = (Returns tt, st) /\
    In (Console LevelWarn [AStr "No summary generated"]) (history st) /\
    children st = [] /\
    length (spans st) = 1 /\
    filter is_span_start (history st) = [SpanStart 0] /\
    filter is_error_message (history st) = [] /\
    (file = first_record ->
     exists st', generateSummary W init = (Returns tt, st') /\
                 history st' = found_message :: history st).
Proof.
  intros Hread Hc Ht.
  pose proof (happens_no_summary W file bs c Hread Hc Ht) as Hsc.
  eexists.
  split; [exact (processPdf_init _ _ _ Hsc)|].
  split; [pick|].
  repeat (split; [reflexivity|]).
  intros ->. eexists.
  split; [exact (generateSummary_run _ _ Hsc)|].
  reflexivity.
Qed.

Lemma empty_completion_short_circuit_witness :
  exists st,
    processPdf silent_world (located silent_world first_record) init =
      (Returns tt, st) /\
    In (Console LevelWarn [AStr "No summary generated"]) (history st) /\
    children st = [] /\
    length (spans st) = 1 /\
    filter is_span_start (history st) = [SpanStart 0] /\
    filter is_error_message (history st) = [] /\
    (first_record = first_record ->
     exists st', generateSummary silent_world init = (Returns tt, st') /\
                 history st' = found_message :: history st).
Proof.
  apply (empty_completion_short_circuit silent_world first_record pdf_bytes
           (reply None)); reflexivity.
Defined.

(** C9.  When the completion has no content the root span is still
    produced: its record has the file's name and nothing else, its
    output is unset.  The name was set before the warning, nothing is
    logged on any span during the run, and after the warning the span
    only ends. *)
Theorem root_span_of_empty_completion (W : World) (file : file_record)
    (bs : list byte) (c : completion) :
  readFileSync W 0 (local_path W file) = Returns bs ->
  asked W (located W file) bs = Returns c ->
  truthy (first_content c) = false ->
  exists st before,
    processPdf W (located W file) init = (Returns tt, st) /\
    spans st =
      [ {| span_id := 0; name := Some (filename file); kind := None;
           parent_ref := None; input := []; output := None;
           metadata := [] |} ] /\
    history st =
      (before ++
       [Console LevelWarn [AStr "No summary generated"]; SpanEnd 0])%list /\
    In (SetAttributes 0
          {| attr_name := Some (filename file); attr_type := None;
             attr_parent := None |}) before /\
    filter is_log (history st) = [].
Proof.
  intros Hread Hc Ht.
  pose proof (happens_no_summary W file bs c Hread Hc Ht) as Hsc.
  exists (final W (located W file) [] (NoSummary bs c)).
  exists (opening (located W file) (Returns bs) ++
          asking W (located W file) bs (Returns c))%list.
  split; [exact (processPdf_init _ _ _ Hsc)|].
  split; [reflexivity|].
  split; [reflexivity|].
  split; [pick|].
  reflexivity.
Qed.

Lemma root_span_of_empty_completion_witness :
  exists st before,
    processPdf silent_world (located silent_world report) init =
      (Returns tt, st) /\
    spans st =
      [ {| span_id := 0; name := Some "report.pdf"; kind := None;
           parent_ref := None; input := []; output := None;
           metadata := [] |} ] /\
    history st =
      (before ++
       [Console LevelWarn [AStr "No summary generated"]; SpanEnd 0])%list /\
    In (SetAttributes 0
          {| attr_name := Some "report.pdf"; attr_type := None;
             attr_parent := None |}) before /\
    filter is_log (history st) = [].
Proof.
  apply (root_span_of_empty_completion silent_world report pdf_bytes
           (reply None)); reflexivity.
Defined.

(* ===================================================================== *)
(** * A failed read or a failed completion (C6) *)
(* ===================================================================== *)

Lemma handler_events_thrown (e : js_error) :
  handler_events (Throws e) =
  Console LevelError [AStr "Error in main:"; AErr e] ::
  match response_data e with
  | Some data =>
      if String.eqb data "" then []
      else [Console LevelError [AStr "Response data:"; AStr data]]
  | None => []
  end.
Proof.
  cbn [handler_events]. f_equal.
  destruct (response_data e) as [data|]; cbn [truthy text_of].
  - now destruct (String.eqb data "").
  - reflexivity.
Qed.

(** The claim as first written fails when it is the second read of the
    file that throws: in [fading_world] the file is there for
    [processPdf] and gone for [logUserPrompt].  The read of
    [<cwd>/pdfs/<filename>] fails, the error leaves [processPdf] and is
    caught and printed by the handler, and yet both child spans are in
    the sink. *)
Lemma late_read_failure_has_child_spans :
  In (FileRead (local_path fading_world first_record) (Throws enoent))
     (history (snd (processPdf fading_world
                      (located fading_world first_record) init))) /\
  fst (processPdf fading_world (located fading_world first_record) init) =
    Throws enoent /\
  fst (generateSummary fading_world init) = Returns tt /\
  In (Console LevelError [AStr "Error in main:"; AErr enoent])
     (history (snd (generateSummary fading_world init))) /\
  map name (children (snd (generateSummary fading_world init))) =
    [Some "system_prompt"; Some "user_prompt"] /\
  children (snd (processPdf fading_world
                   (located fading_world first_record) init)) <> [].
Proof.
  assert (happens fading_world (located fading_world first_record)
            (AttachmentFails pdf_bytes (reply (Some bullets)) enoent)) as Hsc.
  { repeat split. }
  rewrite (processPdf_init _ _ _ Hsc), (generateSummary_run _ _ Hsc).
  cbn [fst snd].
  split.
  { rewrite history_final. cbn [rev app]. apply in_or_app. right.
    apply in_or_app. right. apply in_or_app. right. left. reflexivity. }
  split; [reflexivity|].
  split; [reflexivity|].
  split.
  { unfold history. cbn [trace]. rewrite !rev_app_distr, !rev_involutive.
    apply in_or_app. right. left. reflexivity. }
  split; [reflexivity|].
  discriminate.
Qed.

(** C6, amended.  If the read of the file in [processPdf] throws, or the
    completion call throws, the thrown value leaves [processPdf]: the
    file was read once and the sink holds the root span without children.
    If it is the later read of the same file, in [logUserPrompt], that
    throws, the value leaves [processPdf] as well, after two reads, with
    the [system_prompt] and [user_prompt] spans in the sink.  In every
    case the service was asked at most once, and in the run of
    [generateSummary] the handler catches the value, prints it, prints
    its response payload when it has one, and the run ends there. *)
Theorem failure_reaches_the_handler_from_either_read (W : World)
    (file : file_record) (e : js_error) :
  fails_early W file e \/ fails_late W file e ->
  exists st,
    processPdf W (located W file) init = (Throws e, st) /\
    (fails_early W file e ->
     children st = [] /\
     length (spans st) = 1 /\
     filter is_span_start (history st) = [SpanStart 0] /\
     length (reads_in_context [] (history st)) = 1) /\
    (fails_late W file e ->
     map name (children st) = [Some "system_prompt"; Some "user_prompt"] /\
     length (spans st) = 3 /\
     filter is_span_start (history st) = [SpanStart 0; SpanStart 1; SpanStart 2] /\
     map (fun r => fst r) (reads_in_context [] (history st)) =
       [ (Some 0, local_path W file); (Some 2, local_path W file) ]) /\
    length (collect request_of (history st)) <= 1 /\
    (file = first_record ->
     exists st',
       generateSummary W init = (Returns tt, st') /\
       spans st' = spans st /\
       history st' =
         (found_message :: history st ++
          Console LevelError [AStr "Error in main:"; AErr e] ::
          match response_data e with
          | Some data =>
              if String.eqb data "" then []
              else [Console LevelError [AStr "Response data:"; AStr data]]
          | None => []
          end)%list).
Proof.
  intros H.
  assert (exists sc,
             happens W (located W file) sc /\ outcome_of sc = Throws e /\
             (sc = ReadFails e \/ (exists bs, sc = CompletionFails bs e) \/
              exists bs c, sc = AttachmentFails bs c e))
    as (sc & Hsc & Hout & Hcase).
  { destruct H as [[H|(bs & H1 & H2)]|(bs & c & H1 & H2 & H3 & H4)].
    - exists (ReadFails e). split; [now apply happens_read_fails|].
      split; [reflexivity|now left].
    - exists (CompletionFails bs e).
      split; [now apply happens_completion_fails|].
      split; [reflexivity|right; left; now exists bs].
    - exists (AttachmentFails bs c e).
      split; [now apply happens_attachment_fails|].
      split; [reflexivity|right; right; now exists bs, c]. }
  exists (final W (located W file) [] sc).
  split; [rewrite <- Hout; exact (processPdf_init _ _ _ Hsc)|].
  split.
  { intros Hearly.
    destruct Hcase as [->|[[bs ->]|(bs & c & ->)]];
      [repeat split; reflexivity | repeat split; reflexivity |].
    exfalso. cbn [happens] in Hsc. rewrite located_path in Hsc.
    destruct Hsc as (H1 & H2 & _).
    destruct Hearly as [H0|(bs0 & H0 & H0')].
    - rewrite H1 in H0. discriminate.
    - rewrite H1 in H0. injection H0 as <-. rewrite H2 in H0'. discriminate. }
  split.
  { intros (bs0 & c0 & H0 & H0' & _ & _).
    destruct Hcase as [->|[[bs ->]|(bs & c & ->)]].
    - exfalso. cbn [happens] in Hsc. rewrite located_path in Hsc.
      rewrite H0 in Hsc. discriminate.
    - exfalso. cbn [happens] in Hsc. rewrite located_path in Hsc.
      destruct Hsc as [H1 H2]. rewrite H0 in H1. injection H1 as <-.
      rewrite H0' in H2. discriminate.
    - split; [reflexivity|]. split; [reflexivity|]. split; [reflexivity|].
      rewrite history_final.
      cbn [rev app events_of opening asking reporting reads_in_context
           hd_error tl map fst].
      now rewrite located_path. }
  split; [destruct Hcase as [->|[[bs ->]|(bs & c & ->)]]; cbn; lia|].
  intros ->. eexists.
  split; [exact (generateSummary_run _ _ Hsc)|].
  split; [reflexivity|].
  rewrite <- handler_events_thrown, <- Hout.
  unfold history at 1. cbn [trace].
  rewrite !rev_app_distr, !rev_involutive, history_final.
  reflexivity.
Qed.

Lemma failure_reaches_the_handler_from_either_read_witness :
  (fails_early fading_world first_record enoent \/
   fails_late fading_world first_record enoent) /\
  exists st,
    processPdf fading_world (located fading_world first_record) init =
      (Throws enoent, st) /\
    (fails_early fading_world first_record enoent ->
     children st = [] /\
     length (spans st) = 1 /\
     filter is_span_start (history st) = [SpanStart 0] /\
     length (reads_in_context [] (history st)) = 1) /\
    (fails_late fading_world first_record enoent ->
     map name (children st) = [Some "system_prompt"; Some "user_prompt"] /\
     length (spans st) = 3 /\
     filter is_span_start (history st) = [SpanStart 0; SpanStart 1; SpanStart 2] /\
     map (fun r => fst r) (reads_in_context [] (history st)) =
       [ (Some 0, local_path fading_world first_record);
         (Some 2, local_path fading_world first_record) ]) /\
    length (collect request_of (history st)) <= 1 /\
    (first_record = first_record ->
     exists st',
       generateSummary fading_world init = (Returns tt, st') /\
       spans st' = spans st /\
       history st' =
         (found_message :: history st ++
          Console LevelError [AStr "Error in main:"; AErr enoent] ::
          match response_data enoent with
          | Some data =>
              if String.eqb data "" then []
              else [Console LevelError [AStr "Response data:"; AStr data]]
          | None => []
          end)%list).
Proof.
  assert (fails_late fading_world first_record enoent) as Hlate.
  { exists pdf_bytes, (reply (Some bullets)). repeat split. }
  split.
  - right. exact Hlate.
  - apply (failure_reaches_the_handler_from_either_read fading_world
             first_record enoent).
    right. exact Hlate.
Defined.

(* ===================================================================== *)
(** * The system prompt span (C10) *)
(* ===================================================================== *)

Lemma update_last (f : Span -> Span) (l : list Span) (x : Span) :
  update (length l) f (l ++ [x]) = (l ++ [f x])%list.
Proof.
  induction l as [|y l IH]; cbn [length app update].
  - reflexivity.
  - now rewrite IH.
Qed.

Lemma newest_last (l : list Span) (x : Span) (a : list nat) (n : nat)
    (t : list event) :
  newest {| spans := l ++ [x]; active := a; reads := n; trace := t |} = Some x.
Proof.
  unfold newest. cbn [spans].
  rewrite length_app, Nat.add_sub, nth_error_app2 by lia.
  now rewrite Nat.sub_diag.
Qed.

(** The record that [logSystemPrompt] adds to the sink, from any state. *)
Lemma logSystemPrompt_record (f u summary : string)
    (rootSpan : Promise string) (st : state) :
  newest (snd (logSystemPrompt f u summary rootSpan st)) =
  Some {| span_id := length (spans st); name := Some "system_prompt";
          kind := Some "llm"; parent_ref := Some (resolved rootSpan);
          input := [ {| role := "system"; body := Text SYSTEM_PROMPT |} ];
          output := Some summary; metadata := [] |}.
Proof.
  cbv [logSystemPrompt wrapTraced try_finally bind ret emit setAttributes log
       await start_span end_span currentSpan modify_span
       spans active reads trace hd_error snd].
  rewrite !update_last.
  rewrite newest_last. reflexivity.
Qed.

(** C10.  The span of [logSystemPrompt] does not depend on the file: two
    calls with the same summary and the same root identifier, whatever
    their [filename] and [url], do the same from the same state and,
    from any two states, add records with the same name, type, parent,
    input and output. *)
Theorem system_prompt_span_ignores_file
    (filename1 url1 filename2 url2 summary : string)
    (rootSpan : Promise string) (st1 st2 : state) :
  logSystemPrompt filename1 url1 summary rootSpan st1 =
  logSystemPrompt filename2 url2 summary rootSpan st1 /\
  option_map view
    (newest (snd (logSystemPrompt filename1 url1 summary rootSpan st1))) =
  option_map view
    (newest (snd (logSystemPrompt filename2 url2 summary rootSpan st2))) /\
  option_map view
    (newest (snd (logSystemPrompt filename1 url1 summary rootSpan st1))) =
  Some (Some "system_prompt", Some "llm", Some (resolved rootSpan),
        [ {| role := "system"; body := Text SYSTEM_PROMPT |} ], Some summary).
Proof.
  split; [reflexivity|].
  rewrite !logSystemPrompt_record.
  split; reflexivity.
Qed.

(* ===================================================================== *)
(** * The order of export and link (C3) *)
(* ===================================================================== *)

Lemma known_sound (child : nat) (p : string) (seen : list (nat * string)) :
  known child p seen = true ->
  exists root, In (root, p) seen /\ root <> child.
Proof.
  unfold known. intros H.
  apply existsb_exists in H as ([root slug] & Hin & Hcheck).
  cbn [fst snd] in Hcheck.
  apply andb_true_iff in Hcheck as [Hslug Hroot].
  apply String.eqb_eq in Hslug. subst slug.
  apply negb_true_iff, Nat.eqb_neq in Hroot.
  now exists root.
Qed.

(** What the check of a history means, position by position. *)
Lemma links_follow_exports_sound (h : list event) :
  forall seen,
    links_follow_exports seen h = true ->
    forall k child a p,
      nth_error h k = Some (SetAttributes child a) ->
      attr_parent a = Some p ->
      (exists root, In (root, p) seen /\ root <> child) \/
      (exists i root,
          i < k /\ nth_error h i = Some (Exported root p) /\ root <> child).
Proof.
  induction h as [|e h IH]; intros seen Hcheck k child a p Hk Hp.
  - now destruct k.
  - destruct k as [|k].
    + cbn [nth_error] in Hk. injection Hk as ->.
      cbn [links_follow_exports] in Hcheck. rewrite Hp in Hcheck.
      apply andb_true_iff in Hcheck as [Hknown _].
      left. now apply known_sound.
    + cbn [nth_error] in Hk.
      assert (forall seen',
                 links_follow_exports seen' h = true ->
                 (forall root, In (root, p) seen' ->
                               In (root, p) seen \/ e = Exported root p) ->
                 (exists root, In (root, p) seen /\ root <> child) \/
                 (exists i root,
                     i < S k /\ nth_error (e :: h) i = Some (Exported root p) /\
                     root <> child)) as Hstep.
      { intros seen' Hcheck' Hseen'.
        destruct (IH seen' Hcheck' k child a p Hk Hp)
          as [(root & Hin & Hne)|(i & root & Hlt & Hi & Hne)].
        - destruct (Hseen' root Hin) as [Hold|Hnew].
          + left. now exists root.
          + right. exists 0, root. subst e. repeat split; [lia|assumption].
        - right. exists (S i), root. repeat split; [lia|assumption|assumption]. }
      destruct e; cbn [links_follow_exports] in Hcheck;
        try (apply (Hstep seen Hcheck); intros root Hin; now left).
      * destruct (attr_parent a0).
        -- apply andb_true_iff in Hcheck as [_ Hcheck].
           apply (Hstep seen Hcheck). intros root Hin. now left.
        -- apply (Hstep seen Hcheck). intros root Hin. now left.
      * apply (Hstep _ Hcheck). intros root [Hin|Hin].
        -- injection Hin as -> ->. now right.
        -- now left.
Qed.

(** The histories of the scenarios pass the check. *)
Lemma scenario_links_follow_exports (W : World) (pdfFile : pdf_file)
    (sc : scenario) (before after : list event) :
  forallb is_console (before ++ after) = true ->
  links_follow_exports []
    (before ++ events_of W pdfFile sc ++ after) = true.
Proof.
  intros Hconsole.
  rewrite forallb_app in Hconsole.
  apply andb_true_iff in Hconsole as [Hbefore Hafter].
  assert (forall seen l,
             forallb is_console l = true ->
             forall rest,
               links_follow_exports seen (l ++ rest) =
               links_follow_exports seen rest) as Hskip.
  { intros seen l. induction l as [|e l IH]; intros Hl rest.
    - reflexivity.
    - cbn [forallb] in Hl. apply andb_true_iff in Hl as [He Hl].
      destruct e; try discriminate. cbn [app links_follow_exports].
      now apply IH. }
  rewrite (Hskip _ _ Hbefore).
  destruct sc; cbn [events_of opening asking reporting app
                    links_follow_exports attr_parent child_attributes known
                    existsb fst snd Nat.eqb negb];
    rewrite ?String.eqb_refl; cbn [andb orb];
    rewrite <- (app_nil_r after), (Hskip _ _ Hafter); reflexivity.
Qed.

Lemma scenario_exports (W : World) (pdfFile : pdf_file) (sc : scenario)
    (root : nat) (slug : string) :
  In (Exported root slug) (events_of W pdfFile sc) -> slug = export_id W root.
Proof.
  destruct sc; cbn; intros H;
    repeat (destruct H as [H|H]; [try discriminate; now injection H as <- <-|]);
    contradiction.
Qed.

(** A run ends in the final state of a scenario, its history wrapped in
    console output. *)
Lemma is_run_final (W : World) (st : state) :
  is_run W st ->
  exists pdfFile sc before after,
    happens W pdfFile sc /\
    spans st = spans_of W pdfFile sc /\
    history st = (before ++ events_of W pdfFile sc ++ after)%list /\
    forallb is_console (before ++ after) = true.
Proof.
  intros [|pdfFile].
  - destruct (some_scenario W (located W first_record)) as [sc Hsc].
    exists (located W first_record), sc, [found_message],
           (handler_events (outcome_of sc)).
    split; [assumption|].
    split; [now rewrite (generateSummary_run _ _ Hsc)|].
    split; [now rewrite (history_generateSummary _ _ Hsc)|].
    cbn [app forallb found_message is_console andb].
    destruct (outcome_of sc) as [?|e]; [reflexivity|].
    cbn [handler_events]. now destruct (truthy (response_data e)).
  - destruct (some_scenario W pdfFile) as [sc Hsc].
    exists pdfFile, sc, [], [].
    split; [assumption|].
    rewrite (processPdf_init _ _ _ Hsc). cbn [snd].
    split; [reflexivity|].
    split; [|reflexivity].
    rewrite history_final. cbn [rev app]. now rewrite app_nil_r.
Qed.

Lemma exports_of_a_run (W : World) (st : state) (root : nat) (slug : string) :
  is_run W st ->
  In (Exported root slug) (history st) -> slug = export_id W root.
Proof.
  intros Hrun Hin.
  destruct (is_run_final W st Hrun)
    as (pdfFile & sc & before & after & _ & _ & Hhist & Hconsole).
  rewrite Hhist in Hin.
  rewrite forallb_app in Hconsole.
  apply andb_true_iff in Hconsole as [Hbefore Hafter].
  rewrite forallb_forall in Hbefore, Hafter.
  apply in_app_or in Hin as [Hin|Hin]; [now apply Hbefore in Hin|].
  apply in_app_or in Hin as [Hin|Hin]; [|now apply Hafter in Hin].
  now apply scenario_exports in Hin.
Qed.

(** C3.  In every run, a [setAttributes] that gives a span a parent comes
    later in the history than the [export] that produced that very
    identifier string, and the export is of another span; every span of
    the sink that has a parent was linked by such a step, to the
    identifier of a root span created before it. *)
Theorem children_are_linked_after_export (W : World) (st : state) :
  is_run W st ->
  (forall k child a p,
      nth_error (history st) k = Some (SetAttributes child a) ->
      attr_parent a = Some p ->
      exists i root,
        i < k /\
        nth_error (history st) i = Some (Exported root p) /\
        root <> child /\
        p = export_id W root) /\
  (forall child p,
      In child (spans st) ->
      parent_ref child = Some p ->
      exists root parent a i k,
        nth_error (spans st) root = Some parent /\
        parent_ref parent = None /\
        root < span_id child /\
        p = export_id W root /\
        i < k /\
        nth_error (history st) i = Some (Exported root p) /\
        nth_error (history st) k = Some (SetAttributes (span_id child) a) /\
        attr_parent a = Some p).
Proof.
  intros Hrun.
  destruct (is_run_final W st Hrun)
    as (pdfFile & sc & before & after & Hsc & Hspans & Hhist & Hconsole).
  assert (forall k child a p,
             nth_error (history st) k = Some (SetAttributes child a) ->
             attr_parent a = Some p ->
             exists i root,
               i < k /\
               nth_error (history st) i = Some (Exported root p) /\
               root <> child /\
               p = export_id W root) as Horder.
  { intros k child a p Hk Hp.
    pose proof (scenario_links_follow_exports W pdfFile sc before after Hconsole)
      as Hcheck.
    rewrite <- Hhist in Hcheck.
    destruct (links_follow_exports_sound _ _ Hcheck k child a p Hk Hp)
      as [(root & [] & _)|(i & root & Hlt & Hi & Hne)].
    exists i, root. repeat split; try assumption.
    apply (exports_of_a_run W st root p Hrun).
    now apply nth_error_In in Hi. }
  split; [exact Horder|].
  intros child p Hin Hp.
  assert (exists a,
             In (SetAttributes (span_id child) a) (events_of W pdfFile sc) /\
             attr_parent a = Some p /\
             p = export_id W 0 /\
             0 < span_id child /\
             exists parent, nth_error (spans st) 0 = Some parent /\
                            parent_ref parent = None)
    as (a & Hlink & Ha & Hslug & Hlater & parent & Hparent & Hroot).
  { rewrite Hspans in *. clear Hhist Horder.
    destruct sc; cbn [spans_of In] in Hin;
      repeat (destruct Hin as [<-|Hin]; [cbn in Hp; try discriminate|]);
      try contradiction;
      injection Hp as <-;
      (eexists; split; [pick|];
       split; [reflexivity|];
       split; [reflexivity|];
       split; [cbn; lia|];
       eexists; split; reflexivity). }
  assert (In (SetAttributes (span_id child) a) (history st)) as Hevent.
  { rewrite Hhist. apply in_or_app. right. apply in_or_app. now left. }
  apply In_nth_error in Hevent as [k Hk].
  destruct (Horder k (span_id child) a p Hk Ha) as (i & root & Hlt & Hi & _ & Hp').
  subst p.
  exists 0, parent, a, i, k.
  repeat split; try assumption.
  pose proof (nth_error_In _ _ Hi) as Hexp.
  rewrite Hhist in Hexp.
  rewrite forallb_app in Hconsole.
  apply andb_true_iff in Hconsole as [Hbefore Hafter].
  rewrite forallb_forall in Hbefore, Hafter.
  apply in_app_or in Hexp as [Hexp|Hexp]; [now apply Hbefore in Hexp|].
  apply in_app_or in Hexp as [Hexp|Hexp]; [|now apply Hafter in Hexp].
  replace root with 0 in Hi; [exact Hi|].
  clear - Hexp.
  destruct sc; cbn in Hexp;
    repeat (destruct Hexp as [Hexp|Hexp];
            [try discriminate; now injection Hexp|]);
    contradiction.
Qed.

Lemma children_are_linked_after_export_witness :
  is_run calm_world (snd (generateSummary calm_world init)) /\
  exists i root,
    i < 15 /\
    nth_error (history (snd (generateSummary calm_world init))) i =
      Some (Exported root "span-0") /\
    root <> 2 /\
    "span-0" = export_id calm_world root.
Proof.
  split.
  - apply run_of_script.
  - apply (proj1 (children_are_linked_after_export calm_world _
                    (run_of_script calm_world))
             15 2 (child_attributes calm_world "user_prompt") "span-0").
    + vm_compute. reflexivity.
    + reflexivity.
Defined.

(* ===================================================================== *)
(** * The run over the manifest (C5) *)
(* ===================================================================== *)

Lemma history_of_run (s : list Span) (a : list nat) (n : nat)
    (events after : list event) :
  history {| spans := s; active := a; reads := n;
             trace := rev after ++ rev events ++ [found_message] |} =
  (found_message :: events ++ after)%list.
Proof.
  unfold history. cbn [trace].
  now rewrite !rev_app_distr, !rev_involutive.
Qed.

Lemma other_records (other : file_record) :
  In other (tl pdfFiles) ->
  filename other <> filename first_record /\
  filename other <> "system_prompt" /\
  filename other <> "user_prompt".
Proof.
  cbn [pdfFiles tl In].
  intros H;
    repeat (destruct H as [<-|H]; [repeat split; discriminate|]);
    contradiction.
Qed.

Lemma handler_prints_errors (r : outcome unit) :
  forallb is_error_message (handler_events r) = true.
Proof.
  destruct r as [?|e]; [reflexivity|].
  cbn [handler_events]. now destruct (truthy (response_data e)).
Qed.

Lemma reads_skip_console (l rest : list event) (open : list nat) :
  forallb is_console l = true ->
  reads_in_context open (l ++ rest) = reads_in_context open rest.
Proof.
  induction l as [|e l IH]; intros Hl.
  - reflexivity.
  - cbn [forallb] in Hl. apply andb_true_iff in Hl as [He Hl].
    destruct e; try discriminate. cbn [app reads_in_context]. now apply IH.
Qed.

Lemma requests_skip_console (l : list event) :
  forallb is_console l = true -> collect request_of l = [].
Proof.
  induction l as [|e l IH]; intros Hl.
  - reflexivity.
  - cbn [forallb] in Hl. apply andb_true_iff in Hl as [He Hl].
    destruct e; try discriminate. cbn [collect request_of]. now apply IH.
Qed.

Lemma collect_app {A B : Type} (f : A -> option B) (l l' : list A) :
  collect f (l ++ l') = (collect f l ++ collect f l')%list.
Proof.
  induction l as [|x l IH]; cbn [app collect].
  - reflexivity.
  - destruct (f x); cbn [app]; now rewrite IH.
Qed.

Lemma errors_are_console (l : list event) :
  forallb is_error_message l = true -> forallb is_console l = true.
Proof.
  induction l as [|e l IH]; intros Hl.
  - reflexivity.
  - cbn [forallb] in *. apply andb_true_iff in Hl as [He Hl].
    destruct e; try discriminate. now rewrite IH.
Qed.

Lemma one_at_a_time_console (l rest : list event) (open : list nat) :
  forallb is_console l = true ->
  one_at_a_time open (l ++ rest) = one_at_a_time open rest.
Proof.
  induction l as [|e l IH]; intros Hl.
  - reflexivity.
  - cbn [forallb] in Hl. apply andb_true_iff in Hl as [He Hl].
    destruct e; try discriminate. cbn [app one_at_a_time]. now apply IH.
Qed.

Section ScenarioFacts.
Variable W : World.
Variable pdfFile : pdf_file.
Variable sc : scenario.

Lemma scenario_reads (ctx : option nat) (path : string)
    (found : outcome (list byte)) :
  In (ctx, path, found) (reads_in_context [] (events_of W pdfFile sc)) ->
  path = pdf_path pdfFile \/ path = attachment_path W pdfFile.
Proof.
  destruct sc;
    cbn [events_of opening asking reporting app reads_in_context hd_error tl In];
    intros H;
    repeat (destruct H as [H|H]; [injection H as _ <- _; auto|]);
    contradiction.
Qed.

Lemma scenario_requests (req : request) :
  In req (collect request_of (events_of W pdfFile sc)) ->
  exists bs,
    In (Some 0, pdf_path pdfFile, Returns bs)
       (reads_in_context [] (events_of W pdfFile sc)) /\
    req = completion_request pdfFile (toString_base64 bs).
Proof.
  destruct sc;
    cbn [events_of opening asking reporting app collect request_of
         reads_in_context hd_error tl In];
    intros H;
    repeat (destruct H as [<-|H]; [exists bs; split; [now left|reflexivity]|]);
    contradiction.
Qed.

Lemma scenario_names (s : Span) :
  In s (spans_of W pdfFile sc) ->
  name s = None \/ name s = Some (pdf_filename pdfFile) \/
  name s = Some "system_prompt" \/ name s = Some "user_prompt".
Proof.
  destruct sc; cbn [spans_of In]; intros H;
    repeat (destruct H as [<-|H]; [cbn; auto|]);
    contradiction.
Qed.

Lemma scenario_one_root : length (filter
    (fun s => match parent_ref s with Some _ => false | None => true end)
    (spans_of W pdfFile sc)) = 1.
Proof. destruct sc; reflexivity. Qed.

Lemma scenario_one_at_a_time (after : list event) :
  forallb is_console after = true ->
  one_at_a_time [] (events_of W pdfFile sc ++ after) = true.
Proof.
  intros Hafter.
  destruct sc;
    cbn [events_of opening asking reporting app one_at_a_time Nat.eqb andb];
    rewrite <- (app_nil_r after), (one_at_a_time_console _ _ _ Hafter);
    reflexivity.
Qed.

End ScenarioFacts.

(** C5.  The run over the manifest is the count of its entries, one
    [processPdf] on the first entry, and what the handler prints: the
    sink holds the spans of that one call, under one root.  Every read is
    of the first entry's file and every request carries what was read
    there; no other entry's file is read, none names a span, none is in a
    request.  Things happen one at a time: spans nest, each operation is
    on the innermost span, a request is answered before the next step. *)
Theorem only_the_first_record_is_processed (W : World) :
  exists r st1 st printed,
    processPdf W (located W first_record) init = (r, st1) /\
    generateSummary W init = (Returns tt, st) /\
    history st = (found_message :: history st1 ++ printed)%list /\
    forallb is_error_message printed = true /\
    spans st = spans st1 /\
    length (roots st) = 1 /\
    (forall ctx path found,
        In (ctx, path, found) (reads_in_context [] (history st)) ->
        path = local_path W first_record) /\
    (forall req,
        In req (collect request_of (history st)) ->
        exists bs,
          In (Some 0, local_path W first_record, Returns bs)
             (reads_in_context [] (history st)) /\
          req = completion_request (located W first_record)
                  (toString_base64 bs)) /\
    (forall other,
        In other (tl pdfFiles) ->
        (forall ctx found,
            ~ In (ctx, local_path W other, found)
                 (reads_in_context [] (history st))) /\
        (forall s, In s (spans st) -> name s <> Some (filename other)) /\
        (forall req data,
            In req (collect request_of (history st)) ->
            ~ In (FilePart (filename other) data) (file_parts req))) /\
    one_at_a_time [] (history st) = true.
Proof.
  destruct (some_scenario W (located W first_record)) as [sc Hsc].
  pose proof (handler_prints_errors (outcome_of sc)) as Hprinted.
  pose proof (errors_are_console _ Hprinted) as Hconsole.
  set (pdfFile := located W first_record) in *.
  set (printed := handler_events (outcome_of sc)) in *.
  assert (forall ctx path found,
             In (ctx, path, found)
                (reads_in_context []
                   (found_message :: events_of W pdfFile sc ++ printed)) ->
             In (ctx, path, found)
                (reads_in_context [] (events_of W pdfFile sc)) /\
             path = local_path W first_record) as Hreads.
  { intros ctx path found H.
    cbn [found_message reads_in_context] in H.
    assert (In (ctx, path, found) (reads_in_context [] (events_of W pdfFile sc)))
      as Hin.
    { clear - H Hconsole.
      destruct sc;
        cbn [events_of opening asking reporting app reads_in_context
             hd_error tl In] in *;
        rewrite <- (app_nil_r printed), (reads_skip_console _ _ _ Hconsole) in H;
        cbn [reads_in_context In] in H; tauto. }
    split; [exact Hin|].
    destruct (scenario_reads _ _ _ _ _ _ Hin) as [->| ->].
    - apply located_path.
    - reflexivity. }
  assert (forall req,
             In req (collect request_of
                       (found_message :: events_of W pdfFile sc ++ printed)) ->
             In req (collect request_of (events_of W pdfFile sc))) as Hreqs.
  { intros req H.
    cbn [found_message collect request_of] in H.
    now rewrite collect_app, (requests_skip_console _ Hconsole), app_nil_r in H. }
  assert (forall bs,
             In (Some 0, pdf_path pdfFile, Returns bs)
                (reads_in_context [] (events_of W pdfFile sc)) ->
             In (Some 0, local_path W first_record, Returns bs)
                (reads_in_context []
                   (found_message :: events_of W pdfFile sc ++ printed)))
    as Hback.
  { intros bs H. cbn [found_message reads_in_context].
    unfold pdfFile in H. rewrite located_path in H. fold pdfFile in H.
    clear - H.
    destruct sc;
      cbn [events_of opening asking reporting app reads_in_context
           hd_error tl In] in *;
      repeat (destruct H as [H|H]; [now left|]); try contradiction;
      try (right; now left). }
  eexists _, _, _, printed.
  split; [exact (processPdf_init _ _ _ Hsc)|].
  split; [exact (generateSummary_run _ _ Hsc)|].
  rewrite history_of_run, history_final. cbn [rev app].
  split; [reflexivity|].
  split; [exact Hprinted|].
  split; [reflexivity|].
  split; [apply scenario_one_root|].
  split; [intros ctx path found H; now apply Hreads in H|].
  split.
  { intros req H. apply Hreqs in H.
    destruct (scenario_requests _ _ _ _ H) as (bs & Hread & ->).
    exists bs. split; [now apply Hback|reflexivity]. }
  split.
  { intros other Hother.
    destruct (other_records other Hother) as (Hfirst & Hsys & Huser).
    split; [|split].
    - intros ctx found H. apply Hreads in H as [_ H].
      now apply local_path_inj in H.
    - intros s Hs E. cbn [spans] in Hs.
      destruct (scenario_names _ _ _ _ Hs) as [N|[N|[N|N]]];
        rewrite N in E; try discriminate; injection E as E; symmetry in E;
        first [exact (Hfirst E) | exact (Hsys E) | exact (Huser E)].
    - intros req data H. apply Hreqs in H.
      destruct (scenario_requests _ _ _ _ H) as (bs & _ & ->).
      cbn. intros [E|[E|[]]]; [injection E as E _|discriminate].
      now apply Hfirst. }
  apply scenario_one_at_a_time. exact Hconsole.
Qed.

Lemma only_the_first_record_is_processed_witness :
  exists r st1 st printed,
    processPdf calm_world (located calm_world first_record) init = (r, st1) /\
    generateSummary calm_world init = (Returns tt, st) /\
    history st = (found_message :: history st1 ++ printed)%list /\
    forallb is_error_message printed = true /\
    spans st = spans st1 /\
    length (roots st) = 1 /\
    (forall ctx path found,
        In (ctx, path, found) (reads_in_context [] (history st)) ->
        path = local_path calm_world first_record) /\
    (forall req,
        In req (collect request_of (history st)) ->
        exists bs,
          In (Some 0, local_path calm_world first_record, Returns bs)
             (reads_in_context [] (history st)) /\
          req = completion_request (located calm_world first_record)
                  (toString_base64 bs)) /\
    (forall other,
        In other (tl pdfFiles) ->
        (forall ctx found,
            ~ In (ctx, local_path calm_world other, found)
                 (reads_in_context [] (history st))) /\
        (forall s, In s (spans st) -> name s <> Some (filename other)) /\
        (forall req data,
            In req (collect request_of (history st)) ->
            ~ In (FilePart (filename other) data) (file_parts req))) /\
    one_at_a_time [] (history st) = true.
Proof.
  exact (only_the_first_record_is_processed calm_world).
Defined.

(* ===================================================================== *)
(** * More about the script: runs from any state (X10 to X12) *)
(* ===================================================================== *)

(** Unfolds the script over a state that is not written out. *)
Ltac run_from :=
  cbv [processPdf logSystemPrompt logUserPrompt wrapTraced try_finally
       try_catch bind ret throw emit console_log console_warn console_error
       fs_readFileSync chat_completions_create setAttributes log export
       await resolved start_span end_span currentSpan modify_span
       spans active reads trace hd_error tl negb].

Lemma some_scenario_after (W : World) (pdfFile : pdf_file) (n : nat) :
  exists sc, happens_after W pdfFile n sc.
Proof.
  destruct (readFileSync W n (pdf_path pdfFile)) as [bs|e] eqn:H1.
  2: { now exists (ReadFails e). }
  destruct (asked W pdfFile bs) as [c|e] eqn:H2.
  2: { now exists (CompletionFails bs e). }
  destruct (truthy (first_content c)) eqn:H3.
  2: { now exists (NoSummary bs c). }
  destruct (readFileSync W (S n) (attachment_path W pdfFile)) as [bs'|e] eqn:H4.
  - now exists (Success bs c bs').
  - now exists (AttachmentFails bs c e).
Qed.

Lemma length_snoc (l : list Span) (x : Span) : length (l ++ [x]) = S (length l).
Proof. rewrite length_app. cbn. lia. Qed.

(** Brings the sink back to the form [earlier ++ new]. *)
Ltac tidy_store :=
  rewrite ?update_last, ?length_snoc, <- ?app_assoc; cbn [app].

(** The program does what the scenario says, from any state. *)
Lemma processPdf_from (W : World) (pdfFile : pdf_file) (st : state)
    (sc : scenario) :
  happens_after W pdfFile (reads st) sc ->
  processPdf W pdfFile st = (outcome_of sc, continued W pdfFile st sc).
Proof.
  destruct st as [sp ac n t].
  destruct sc; cbn [happens_after reads]; intros H;
    unfold continued; cbn [spans active reads trace reads_of Nat.add].
  - run_from. rewrite H. reflexivity.
  - destruct H as [H1 H2]. run_from. rewrite H1. run_from.
    unfold asked in H2. rewrite H2. run_from. tidy_store. reflexivity.
  - destruct H as (H1 & H2 & H3). run_from. rewrite H1. run_from.
    unfold asked in H2. rewrite H2. run_from. rewrite H3. run_from.
    tidy_store. reflexivity.
  - destruct H as (H1 & H2 & H3 & H4). run_from. rewrite H1. run_from.
    unfold asked in H2. rewrite H2. run_from. rewrite H3. run_from.
    fold (attachment_path W pdfFile). rewrite H4. run_from.
    tidy_store. reflexivity.
  - destruct H as (H1 & H2 & H3 & H4). run_from. rewrite H1. run_from.
    unfold asked in H2. rewrite H2. run_from. rewrite H3. run_from.
    fold (attachment_path W pdfFile). rewrite H4. run_from.
    tidy_store. reflexivity.
Qed.

(** X10.  [processPdf] keeps to its own spans, from any state: it
    appends one record or three to the sink and leaves the earlier ones
    and the stack of active spans as they were; it reads once or twice;
    the new records are numbered from the old length, every parent they
    have is the identifier of the new root, and every span event is about
    a new span. *)
Theorem processPdf_keeps_to_its_own_spans (W : World) (pdfFile : pdf_file)
    (st : state) :
  exists r added events n,
    processPdf W pdfFile st =
      (r, {| spans := spans st ++ added; active := active st;
             reads := n + reads st; trace := rev events ++ trace st |}) /\
    (length added = 1 \/ length added = 3) /\
    1 <= n <= 2 /\
    (forall i s, nth_error added i = Some s -> span_id s = length (spans st) + i) /\
    (forall s p, In s added -> parent_ref s = Some p ->
                 p = export_id W (length (spans st)) /\
                 span_id s <> length (spans st)) /\
    (forall e id, In e events -> span_of_event e = Some id ->
                  length (spans st) <= id).
Proof.
  destruct (some_scenario_after W pdfFile (reads st)) as [sc Hsc].
  exists (outcome_of sc), (spans_from W pdfFile (length (spans st)) sc),
         (events_from W pdfFile (length (spans st)) sc), (reads_of sc).
  split; [exact (processPdf_from W pdfFile st sc Hsc)|].
  split; [destruct sc; cbn; auto|].
  split; [destruct sc; cbn; lia|].
  split.
  { intros i s H.
    destruct sc; cbn [spans_from] in H;
      repeat (destruct i as [|i]; cbn [nth_error] in H;
              [injection H as <-; cbn; lia|]);
      now destruct i. }
  split.
  { intros s p H Hp.
    destruct sc; cbn [spans_from In] in H;
      repeat (destruct H as [<-|H]; [cbn in Hp; try discriminate|]);
      try contradiction;
      injection Hp as <-; cbn; (split; [reflexivity|lia]). }
  intros e id H He.
  destruct sc;
    cbn [events_from opening_from asking_from reporting_from app In] in H;
    repeat (destruct H as [<-|H];
            [cbn in He; try discriminate; injection He as <-; lia|]);
    contradiction.
Qed.

(** X11.  [logUserPrompt], from any state: it names and links a new
    span, then reads [<cwd>/pdfs/<filename>] once.  If the read returns,
    the span is logged with the prompt, the attachment, the summary and
    the three metadata entries; if it throws, the value is thrown on and
    the span stays without input, output and metadata.  Either way the
    span ends and the earlier records are untouched. *)
Theorem logUserPrompt_adds_one_span (W : World)
    (filename url prompt summary : string) (rootSpan : Promise string)
    (base64String : string) (st : state) :
  let path := path_join [cwd W; "pdfs"; filename] in
  let id := length (spans st) in
  let linked :=
    {| span_id := id; name := Some "user_prompt"; kind := Some "llm";
       parent_ref := Some (resolved rootSpan); input := []; output := None;
       metadata := [] |} in
  let link :=
    SetAttributes id
      {| attr_name := Some "user_prompt"; attr_type := Some "llm";
         attr_parent := Some (resolved rootSpan) |} in
  logUserPrompt W filename url prompt summary rootSpan base64String st =
  match readFileSync W (reads st) path with
  | Returns data =>
      let logged :=
        {| log_input :=
             Some [ {| role := "user"; body := Text prompt |};
                    {| role := "user";
                       body := File {| att_data := data; att_filename := filename;
                                       att_contentType := "application/pdf" |} |} ];
           log_output := Some summary;
           log_metadata := Some [ ("filename", filename); ("url", url);
                                  ("base64String", base64String) ] |} in
      (Returns tt,
       {| spans := spans st ++ [apply_payload logged linked];
          active := active st;
          reads := S (reads st);
          trace := SpanEnd id :: Log id logged :: FileRead path (Returns data) ::
                   link :: SpanStart id :: trace st |})
  | Throws e =>
      (Throws e,
       {| spans := spans st ++ [linked];
          active := active st;
          reads := S (reads st);
          trace := SpanEnd id :: FileRead path (Throws e) ::
                   link :: SpanStart id :: trace st |})
  end.
Proof.
  destruct st as [sp ac n t]. cbn [spans active reads trace].
  run_from. cbv [new_Attachment].
  destruct (readFileSync W n (path_join [cwd W; "pdfs"; filename])) as [data|e];
    run_from; tidy_store; reflexivity.
Qed.

(** X12.  [logSystemPrompt], from any state: it returns, reads no file,
    appends one record (named [system_prompt], typed [llm], linked to the
    given identifier, with the system instruction as input and the
    summary as output) and leaves everything else as it was. *)
Theorem logSystemPrompt_adds_one_span (filename url summary : string)
    (rootSpan : Promise string) (st : state) :
  let id := length (spans st) in
  let link :=
    {| attr_name := Some "system_prompt"; attr_type := Some "llm";
       attr_parent := Some (resolved rootSpan) |} in
  let logged :=
    {| log_input := Some [ {| role := "system"; body := Text SYSTEM_PROMPT |} ];
       log_output := Some summary; log_metadata := None |} in
  logSystemPrompt filename url summary rootSpan st =
  (Returns tt,
   {| spans := spans st ++
               [ {| span_id := id; name := Some "system_prompt";
                    kind := Some "llm"; parent_ref := Some (resolved rootSpan);
                    input := [ {| role := "system"; body := Text SYSTEM_PROMPT |} ];
                    output := Some summary; metadata := [] |} ];
      active := active st;
      reads := reads st;
      trace := SpanEnd id :: Log id logged :: SetAttributes id link ::
               SpanStart id :: trace st |}).
Proof.
  destruct st as [sp ac n t]. cbn [spans active reads trace].
  run_from. tidy_store. reflexivity.
Qed.

(* ===================================================================== *)
(** * More about the script: files, failures and the shape of a run *)
(* ===================================================================== *)

(** X1.  [getPdfFiles] keeps the manifest's order, names and urls, gives
    every entry the path that [logUserPrompt] rebuilds from the name, and
    gives no two entries the same path. *)
Theorem getPdfFiles_places (W : World) :
  map pdf_filename (getPdfFiles W) = map filename pdfFiles /\
  map pdf_url (getPdfFiles W) = map url pdfFiles /\
  (forall pdfFile,
      In pdfFile (getPdfFiles W) ->
      pdf_path pdfFile = path_join [cwd W; "pdfs"; pdf_filename pdfFile]) /\
  NoDup (map pdf_path (getPdfFiles W)).
Proof.
  split; [reflexivity|].
  split; [reflexivity|].
  split.
  - intros pdfFile H. unfold getPdfFiles in H.
    apply in_map_iff in H as (file & <- & _).
    apply (located_path W file).
  - assert (map pdf_path (getPdfFiles W) = map (local_path W) pdfFiles) as ->.
    { unfold getPdfFiles. rewrite map_map. apply map_ext.
      intros file. apply (located_path W file). }
    assert (NoDup (map filename pdfFiles)) as Hnames.
    { cbn [pdfFiles map filename].
      repeat (constructor; [cbn [In]; intuition discriminate|]).
      constructor. }
    revert Hnames. generalize pdfFiles as l.
    induction l as [|f l IH]; cbn [map]; intros Hnames.
    + constructor.
    + inversion Hnames as [|x xs Hnotin Hrest]; subst.
      constructor; [|now apply IH].
      intros Hin. apply Hnotin.
      apply in_map_iff in Hin as (g & Hg & Hing).
      apply local_path_inj in Hg. rewrite <- Hg.
      now apply in_map.
Qed.

(** X2.  [logUserPrompt] does not use the record's [path]: whatever
    path [processPdf] read for the base64 text, the attachment is read
    from [<cwd>/pdfs/<filename>] and carries the record's file name. *)
Theorem attachment_comes_from_the_pdfs_directory (W : World)
    (pdfFile : pdf_file) (bs bs' : list byte) (c : completion) :
  readFileSync W 0 (pdf_path pdfFile) = Returns bs ->
  asked W pdfFile bs = Returns c ->
  truthy (first_content c) = true ->
  readFileSync W 1 (path_join [cwd W; "pdfs"; pdf_filename pdfFile]) =
    Returns bs' ->
  exists st user,
    processPdf W pdfFile init = (Returns tt, st) /\
    reads_in_context [] (history st) =
      [ (Some 0, pdf_path pdfFile, Returns bs);
        (Some 2, path_join [cwd W; "pdfs"; pdf_filename pdfFile], Returns bs') ] /\
    nth_error (spans st) 2 = Some user /\
    assoc_get "base64String" (metadata user) = Some (toString_base64 bs) /\
    collect attachment_of (input user) =
      [ {| att_data := bs'; att_filename := pdf_filename pdfFile;
           att_contentType := "application/pdf" |} ].
Proof.
  intros H1 H2 H3 H4.
  assert (happens W pdfFile (Success bs c bs')) as Hsc by (cbn; auto).
  eexists _, _.
  split; [exact (processPdf_init _ _ _ Hsc)|].
  split.
  { rewrite history_final. cbn [rev app events_of opening asking reporting].
    reflexivity. }
  repeat (split; [reflexivity|]).
  reflexivity.
Qed.

Lemma attachment_comes_from_the_pdfs_directory_witness :
  exists st user,
    processPdf two_copies_world draft init = (Returns tt, st) /\
    reads_in_context [] (history st) =
      [ (Some 0, "/tmp/draft.pdf", Returns newer_bytes);
        (Some 2, "/app/pdfs/report.pdf", Returns pdf_bytes) ] /\
    nth_error (spans st) 2 = Some user /\
    assoc_get "base64String" (metadata user) =
      Some (toString_base64 newer_bytes) /\
    collect attachment_of (input user) =
      [ {| att_data := pdf_bytes; att_filename := "report.pdf";
           att_contentType := "application/pdf" |} ].
Proof.
  apply (attachment_comes_from_the_pdfs_directory two_copies_world draft
           newer_bytes pdf_bytes (reply (Some bullets))); reflexivity.
Defined.

(** X3.  When the read in [logUserPrompt] throws, [processPdf] throws
    the same value, late: the root has its output, the [system_prompt]
    span is complete, the [user_prompt] span is named and linked but was
    never logged; all three spans have ended, and the handler of
    [generateSummary] prints the value. *)
Theorem failed_attachment_read_leaves_partial_trace (W : World)
    (file : file_record) (bs : list byte) (c : completion) (text : string)
    (e : js_error) :
  readFileSync W 0 (local_path W file) = Returns bs ->
  asked W (located W file) bs = Returns c ->
  first_content c = Some text ->
  text <> "" ->
  readFileSync W 1 (local_path W file) = Throws e ->
  exists st,
    processPdf W (located W file) init = (Throws e, st) /\
    spans st =
      [ {| span_id := 0; name := Some (filename file); kind := None;
           parent_ref := None; input := []; output := Some text;
           metadata := [] |};
        {| span_id := 1; name := Some "system_prompt"; kind := Some "llm";
           parent_ref := Some (export_id W 0);
           input := [ {| role := "system"; body := Text SYSTEM_PROMPT |} ];
           output := Some text; metadata := [] |};
        {| span_id := 2; name := Some "user_prompt"; kind := Some "llm";
           parent_ref := Some (export_id W 0);
           input := []; output := None; metadata := [] |} ] /\
    filter is_span_end (history st) = [SpanEnd 1; SpanEnd 2; SpanEnd 0] /\
    active st = [] /\
    filter (is_log_of 2) (history st) = [] /\
    (file = first_record ->
     exists st',
       generateSummary W init = (Returns tt, st') /\
       spans st' = spans st /\
       In (Console LevelError [AStr "Error in main:"; AErr e]) (history st')).
Proof.
  intros H1 H2 Hfirst Htext H4.
  destruct (truthy_text _ _ Hfirst Htext) as [H3 Hout].
  pose proof (happens_attachment_fails W file bs c e H1 H2 H3 H4) as Hsc.
  eexists.
  split; [exact (processPdf_init _ _ _ Hsc)|].
  split; [cbn; now rewrite Hout|].
  repeat (split; [reflexivity|]).
  intros ->. eexists.
  split; [exact (generateSummary_run _ _ Hsc)|].
  split; [reflexivity|].
  rewrite history_of_run. cbn [outcome_of handler_events].
  right. apply in_or_app. right. now left.
Qed.

Lemma failed_attachment_read_leaves_partial_trace_witness :
  exists st,
    processPdf fading_world (located fading_world first_record) init =
      (Throws enoent, st) /\
    spans st =
      [ {| span_id := 0; name := Some (filename first_record); kind := None;
           parent_ref := None; input := []; output := Some bullets;
           metadata := [] |};
        {| span_id := 1; name := Some "system_prompt"; kind := Some "llm";
           parent_ref := Some (export_id fading_world 0);
           input := [ {| role := "system"; body := Text SYSTEM_PROMPT |} ];
           output := Some bullets; metadata := [] |};
        {| span_id := 2; name := Some "user_prompt"; kind := Some "llm";
           parent_ref := Some (export_id fading_world 0);
           input := []; output := None; metadata := [] |} ] /\
    filter is_span_end (history st) = [SpanEnd 1; SpanEnd 2; SpanEnd 0] /\
    active st = [] /\
    filter (is_log_of 2) (history st) = [] /\
    (first_record = first_record ->
     exists st',
       generateSummary fading_world init = (Returns tt, st') /\
       spans st' = spans st /\
       In (Console LevelError [AStr "Error in main:"; AErr enoent]) (history st')).
Proof.
  apply (failed_attachment_read_leaves_partial_trace fading_world first_record
           pdf_bytes (reply (Some bullets)) bullets enoent);
    try reflexivity.
  discriminate.
Defined.

(** X8.  When the first read throws, the root span has been created
    but not named: the name is set after the read.  Nothing is exported
    and the service is not asked. *)
Theorem unreadable_file_leaves_an_unnamed_root (W : World)
    (pdfFile : pdf_file) (e : js_error) :
  readFileSync W 0 (pdf_path pdfFile) = Throws e ->
  exists st,
    processPdf W pdfFile init = (Throws e, st) /\
    spans st =
      [ {| span_id := 0; name := None; kind := None; parent_ref := None;
           input := []; output := None; metadata := [] |} ] /\
    history st =
      [ SpanStart 0;
        Console LevelLog [AStr ("Processing " ++ pdf_filename pdfFile ++ "...")];
        FileRead (pdf_path pdfFile) (Throws e);
        SpanEnd 0 ].
Proof.
  intros H.
  assert (happens W pdfFile (ReadFails e)) as Hsc by exact H.
  eexists.
  split; [exact (processPdf_init _ _ _ Hsc)|].
  split; reflexivity.
Qed.

Lemma unreadable_file_leaves_an_unnamed_root_witness :
  exists st,
    processPdf empty_disk_world (located empty_disk_world report) init =
      (Throws enoent, st) /\
    spans st =
      [ {| span_id := 0; name := None; kind := None; parent_ref := None;
           input := []; output := None; metadata := [] |} ] /\
    history st =
      [ SpanStart 0;
        Console LevelLog [AStr "Processing report.pdf..."];
        FileRead "/app/pdfs/report.pdf" (Throws enoent);
        SpanEnd 0 ].
Proof.
  apply (unreadable_file_leaves_an_unnamed_root empty_disk_world
           (located empty_disk_world report) enoent).
  reflexivity.
Defined.

(** X4.  The url of a record reaches nothing but the [url] entry of the
    [user_prompt] metadata: two records with the same file name run the
    same way, with the same reads, request, result and spans, up to that
    entry. *)
Lemma same_name_same_scenario (W : World) (f g : file_record) (sc : scenario) :
  filename f = filename g ->
  happens W (located W f) sc -> happens W (located W g) sc.
Proof.
  intros Hname.
  assert (pdf_path (located W f) = pdf_path (located W g)) as Hpath.
  { now rewrite !located_path; unfold local_path; rewrite Hname. }
  assert (attachment_path W (located W f) = attachment_path W (located W g))
    as Hattach.
  { unfold attachment_path, located, locate. cbn [pdf_filename].
    now rewrite Hname. }
  assert (forall bs, asked W (located W f) bs = asked W (located W g) bs)
    as Hasked.
  { intros bs. unfold asked, completion_request, located, locate.
    cbn [pdf_filename]. now rewrite Hname. }
  destruct sc; cbn [happens];
    rewrite ?Hpath, ?Hattach, ?Hasked; exact (fun H => H).
Qed.

Theorem url_reaches_only_the_metadata (W : World) (f g : file_record) :
  filename f = filename g ->
  exists r st_f st_g,
    processPdf W (located W f) init = (r, st_f) /\
    processPdf W (located W g) init = (r, st_g) /\
    filter (fun ev => negb (is_log ev)) (history st_f) =
    filter (fun ev => negb (is_log ev)) (history st_g) /\
    map (fun s => (span_id s, view s, without_url (metadata s))) (spans st_f) =
    map (fun s => (span_id s, view s, without_url (metadata s))) (spans st_g) /\
    (forall s u, In s (spans st_f) -> assoc_get "url" (metadata s) = Some u ->
                 u = url f) /\
    (forall s u, In s (spans st_g) -> assoc_get "url" (metadata s) = Some u ->
                 u = url g).
Proof.
  intros Hname.
  destruct (some_scenario W (located W f)) as [sc Hf].
  pose proof (same_name_same_scenario W f g sc Hname Hf) as Hg.
  assert (pdf_path (located W f) = pdf_path (located W g)) as Hpath.
  { now rewrite !located_path; unfold local_path; rewrite Hname. }
  exists (outcome_of sc), (final W (located W f) [] sc),
         (final W (located W g) [] sc).
  split; [exact (processPdf_init _ _ _ Hf)|].
  split; [exact (processPdf_init _ _ _ Hg)|].
  rewrite !history_final. cbn [rev app].
  split.
  { destruct sc;
      cbn [events_of opening asking reporting app filter is_log negb];
      unfold attachment_path, completion_request;
      rewrite Hpath; cbn [located locate pdf_filename]; rewrite Hname;
      reflexivity. }
  split.
  { destruct sc; cbn [final spans spans_of map]; unfold view, root_record;
      cbn; rewrite ?Hname; reflexivity. }
  split; intros s u Hin Hu;
    (destruct sc; cbn [final spans spans_of In] in Hin;
     repeat (destruct Hin as [<-|Hin]; [cbn in Hu; try discriminate|]);
     try contradiction; now injection Hu).
Qed.

Lemma url_reaches_only_the_metadata_witness :
  exists r st_f st_g,
    processPdf calm_world (located calm_world report) init = (r, st_f) /\
    processPdf calm_world (located calm_world mirrored) init = (r, st_g) /\
    filter (fun ev => negb (is_log ev)) (history st_f) =
    filter (fun ev => negb (is_log ev)) (history st_g) /\
    map (fun s => (span_id s, view s, without_url (metadata s))) (spans st_f) =
    map (fun s => (span_id s, view s, without_url (metadata s))) (spans st_g) /\
    (forall s u, In s (spans st_f) -> assoc_get "url" (metadata s) = Some u ->
                 u = url report) /\
    (forall s u, In s (spans st_g) -> assoc_get "url" (metadata s) = Some u ->
                 u = url mirrored).
Proof.
  apply (url_reaches_only_the_metadata calm_world report mirrored).
  reflexivity.
Defined.

(** X5.  The spans of a run form a flat tree: one record or three,
    numbered by position; the first has no parent and no type; the others
    are [system_prompt] and [user_prompt], in that order, of type [llm],
    both linked to the identifier of the first. *)
Theorem spans_form_a_flat_tree (W : World) (st : state) :
  is_run W st ->
  (length (spans st) = 1 \/ length (spans st) = 3) /\
  (forall i s, nth_error (spans st) i = Some s -> span_id s = i) /\
  (forall s, nth_error (spans st) 0 = Some s ->
             parent_ref s = None /\ kind s = None) /\
  (forall i s,
      nth_error (spans st) (S i) = Some s ->
      parent_ref s = Some (export_id W 0) /\
      kind s = Some "llm" /\
      name s = Some (if Nat.eqb i 0 then "system_prompt" else "user_prompt")).
Proof.
  intros Hrun.
  destruct (is_run_final W st Hrun)
    as (pdfFile & sc & before & after & _ & -> & _ & _).
  split; [destruct sc; cbn; auto|].
  split.
  { intros i s H.
    destruct sc; cbn [spans_of] in H;
      repeat (destruct i as [|i]; cbn [nth_error] in H;
              [now injection H as <-|]);
      now destruct i. }
  split.
  { intros s H. destruct sc; cbn in H; injection H as <-; now split. }
  intros i s H.
  destruct sc; cbn [spans_of] in H;
    repeat (destruct i as [|i]; cbn [nth_error] in H;
            [injection H as <-; repeat split|]);
    now destruct i.
Qed.

Lemma spans_form_a_flat_tree_witness :
  is_run calm_world (snd (generateSummary calm_world init)) /\
  length (spans (snd (generateSummary calm_world init))) = 3.
Proof.
  split.
  - apply run_of_script.
  - destruct (proj1 (spans_form_a_flat_tree calm_world _
                       (run_of_script calm_world))) as [H|H].
    + vm_compute in H. discriminate.
    + exact H.
Defined.

(** X6.  In a run every span gets its attributes at most once and is
    logged at most once, and what is logged on the root is its output
    alone. *)
Lemma filter_console (p : event -> bool) (l : list event) :
  (forall l' args, p (Console l' args) = false) ->
  forallb is_console l = true -> filter p l = [].
Proof.
  intros Hp. induction l as [|e l IH]; intros Hl.
  - reflexivity.
  - cbn [forallb] in Hl. apply andb_true_iff in Hl as [He Hl].
    destruct e; try discriminate. cbn [filter]. rewrite Hp. now apply IH.
Qed.

Theorem each_span_is_set_up_and_logged_once (W : World) (st : state)
    (id : nat) :
  is_run W st ->
  length (filter (is_attributes_of id) (history st)) <= 1 /\
  length (filter (is_log_of id) (history st)) <= 1 /\
  (forall p, In (Log 0 p) (history st) ->
             log_input p = None /\ log_metadata p = None).
Proof.
  intros Hrun.
  destruct (is_run_final W st Hrun)
    as (pdfFile & sc & before & after & _ & _ & -> & Hconsole).
  rewrite forallb_app in Hconsole.
  apply andb_true_iff in Hconsole as [Hbefore Hafter].
  rewrite !filter_app.
  rewrite (filter_console (is_attributes_of id) before),
          (filter_console (is_attributes_of id) after),
          (filter_console (is_log_of id) before),
          (filter_console (is_log_of id) after);
    try assumption; try reflexivity.
  rewrite !app_nil_r. cbn [app].
  split; [|split].
  - destruct sc; destruct id as [|[|[|id]]]; cbn; lia.
  - destruct sc; destruct id as [|[|[|id]]]; cbn; lia.
  - intros p Hin.
    apply in_app_or in Hin as [Hin|Hin].
    { rewrite forallb_forall in Hbefore. now apply Hbefore in Hin. }
    apply in_app_or in Hin as [Hin|Hin].
    2: { rewrite forallb_forall in Hafter. now apply Hafter in Hin. }
    destruct sc; cbn in Hin;
      repeat (destruct Hin as [Hin|Hin];
              [try discriminate; injection Hin as <-; now split|]);
      contradiction.
Qed.

Lemma each_span_is_set_up_and_logged_once_witness :
  is_run calm_world (snd (generateSummary calm_world init)) /\
  length (filter (is_log_of 2)
            (history (snd (generateSummary calm_world init)))) <= 1.
Proof.
  split.
  - apply run_of_script.
  - apply (each_span_is_set_up_and_logged_once calm_world _ 2
             (run_of_script calm_world)).
Defined.

(** X7.  Only the [user_prompt] span carries the file: a span of a run
    with metadata or with an attachment in its input is the third one,
    named [user_prompt], with the keys [filename], [url], [base64String]
    and one attachment. *)
Theorem only_user_prompt_carries_the_file (W : World) (st : state) (s : Span) :
  is_run W st ->
  In s (spans st) ->
  metadata s <> [] \/ collect attachment_of (input s) <> [] ->
  span_id s = 2 /\
  name s = Some "user_prompt" /\
  map fst (metadata s) = ["filename"; "url"; "base64String"] /\
  length (collect attachment_of (input s)) = 1.
Proof.
  intros Hrun Hin Hfile.
  destruct (is_run_final W st Hrun)
    as (pdfFile & sc & before & after & _ & Hspans & _ & _).
  rewrite Hspans in Hin.
  destruct sc; cbn [spans_of In] in Hin;
    repeat (destruct Hin as [<-|Hin];
            [cbn in Hfile; try (destruct Hfile as [Hfile|Hfile]; now elim Hfile)|]);
    try contradiction;
    repeat split.
Qed.

Lemma only_user_prompt_carries_the_file_witness :
  let st := snd (generateSummary calm_world init) in
  let s := nth 2 (spans st) (new_span 0) in
  is_run calm_world st /\
  In s (spans st) /\
  (metadata s <> [] \/ collect attachment_of (input s) <> []) /\
  span_id s = 2 /\
  name s = Some "user_prompt" /\
  map fst (metadata s) = ["filename"; "url"; "base64String"] /\
  length (collect attachment_of (input s)) = 1.
Proof.
  cbv zeta.
  assert (In (nth 2 (spans (snd (generateSummary calm_world init))) (new_span 0))
             (spans (snd (generateSummary calm_world init)))) as Hin.
  { vm_compute. right. right. left. reflexivity. }
  assert (metadata (nth 2 (spans (snd (generateSummary calm_world init)))
                      (new_span 0)) <> []) as Hm.
  { vm_compute. discriminate. }
  split; [apply run_of_script|].
  split; [exact Hin|].
  split; [left; exact Hm|].
  apply (only_user_prompt_carries_the_file calm_world _ _
           (run_of_script calm_world) Hin).
  left. exact Hm.
Defined.

(** X9.  The [base64String] of the metadata is the bare base64 text:
    the request carries it behind [data:application/pdf;base64,], and
    only with that prefix does it parse as a data URL. *)
Lemma char_is_no_colon (s : Base64.sextet) :
  Ascii.eqb ":"%char (Base64.b64_char s) = false.
Proof. destruct s as [[[[[[] []] []] []] []] []]; reflexivity. Qed.

Lemma base64_text_has_no_scheme (bs : list byte) :
  DataUrl.strip_prefix "data:" (Base64.to_base64 bs) = None.
Proof.
  assert (forall rest, DataUrl.strip_prefix ":" (Base64.to_base64 rest) = None)
    as Hcolon.
  { intros [|u [|v [|w rest]]]; cbn [Base64.to_base64].
    - reflexivity.
    - destruct (Base64.group1 (to_bits u)) as [p q].
      cbn [DataUrl.strip_prefix]. now rewrite char_is_no_colon.
    - destruct (Base64.group2 (to_bits u) (to_bits v)) as [[p q] r].
      cbn [DataUrl.strip_prefix]. now rewrite char_is_no_colon.
    - destruct (Base64.group3 (to_bits u) (to_bits v) (to_bits w))
        as [[[p q] r] s].
      cbn [DataUrl.strip_prefix]. now rewrite char_is_no_colon. }
  destruct bs as [|x [|y [|z rest]]]; cbn [Base64.to_base64].
  - reflexivity.
  - destruct (Base64.group1 (to_bits x)) as [p q].
    cbn [DataUrl.strip_prefix].
    destruct (Ascii.eqb "d" (Base64.b64_char p)); [|reflexivity].
    destruct (Ascii.eqb "a" (Base64.b64_char q)); reflexivity.
  - destruct (Base64.group2 (to_bits x) (to_bits y)) as [[p q] r].
    cbn [DataUrl.strip_prefix].
    destruct (Ascii.eqb "d" (Base64.b64_char p)); [|reflexivity].
    destruct (Ascii.eqb "a" (Base64.b64_char q)); [|reflexivity].
    destruct (Ascii.eqb "t" (Base64.b64_char r)); reflexivity.
  - destruct (Base64.group3 (to_bits x) (to_bits y) (to_bits z))
      as [[[p q] r] s].
    cbn [DataUrl.strip_prefix].
    destruct (Ascii.eqb "d" (Base64.b64_char p)); [|reflexivity].
    destruct (Ascii.eqb "a" (Base64.b64_char q)); [|reflexivity].
    destruct (Ascii.eqb "t" (Base64.b64_char r)); [|reflexivity].
    destruct (Ascii.eqb "a" (Base64.b64_char s)); [|reflexivity].
    apply Hcolon.
Qed.

Theorem metadata_holds_the_bare_base64_text (W : World) (file : file_record)
    (bs bs' : list byte) (c : completion) :
  readFileSync W 0 (local_path W file) = Returns bs ->
  asked W (located W file) bs = Returns c ->
  truthy (first_content c) = true ->
  readFileSync W 1 (local_path W file) = Returns bs' ->
  exists st user base64String,
    processPdf W (located W file) init = (Returns tt, st) /\
    nth_error (spans st) 2 = Some user /\
    assoc_get "base64String" (metadata user) = Some base64String /\
    map file_parts (collect request_of (history st)) =
      [ [ FilePart (filename file)
            ("data:application/pdf;base64," ++ base64String);
          TextPart userPrompt ] ] /\
    DataUrl.parse base64String = None /\
    DataUrl.parse ("data:application/pdf;base64," ++ base64String) =
      Some ("application/pdf", bs).
Proof.
  intros H1 H2 H3 H4.
  pose proof (happens_success W file bs c bs' H1 H2 H3 H4) as Hsc.
  eexists _, _, (toString_base64 bs).
  split; [exact (processPdf_init _ _ _ Hsc)|].
  split; [reflexivity|].
  split; [reflexivity|].
  split; [reflexivity|].
  split.
  - unfold DataUrl.parse, toString_base64.
    now rewrite base64_text_has_no_scheme.
  - exact (parse_file_data_url bs).
Qed.

Lemma metadata_holds_the_bare_base64_text_witness :
  exists st user base64String,
    processPdf calm_world (located calm_world report) init = (Returns tt, st) /\
    nth_error (spans st) 2 = Some user /\
    assoc_get "base64String" (metadata user) = Some base64String /\
    map file_parts (collect request_of (history st)) =
      [ [ FilePart "report.pdf"
            ("data:application/pdf;base64," ++ base64String);
          TextPart userPrompt ] ] /\
    DataUrl.parse base64String = None /\
    DataUrl.parse ("data:application/pdf;base64," ++ base64String) =
      Some ("application/pdf", pdf_bytes).
Proof.
  apply (metadata_holds_the_bare_base64_text calm_world report pdf_bytes
           pdf_bytes (reply (Some bullets))); reflexivity.
Defined.

(** X13.  The [logUserPrompt] printed in the cookbook is not the
    script's: it reads no file and always returns, and its record has the
    prompt as only input.  The script's record has the same number, name,
    type and parent; when its read returns it has the same output and
    metadata and the attachment as a second input, and when its read
    throws it has none of them. *)
Theorem cookbook_logUserPrompt_reads_nothing (W : World)
    (filename url prompt summary : string) (rootSpan : Promise string)
    (base64String : string) (st : state) :
  let path := path_join [cwd W; "pdfs"; filename] in
  let printed :=
    Cookbook.logUserPrompt filename url prompt summary rootSpan base64String st in
  let script :=
    logUserPrompt W filename url prompt summary rootSpan base64String st in
  fst printed = Returns tt /\
  reads (snd printed) = reads st /\
  filter is_file_read (trace (snd printed)) = filter is_file_read (trace st) /\
  exists in_cookbook in_script,
    newest (snd printed) = Some in_cookbook /\
    newest (snd script) = Some in_script /\
    input in_cookbook = [ {| role := "user"; body := Text prompt |} ] /\
    (span_id in_script, name in_script, kind in_script, parent_ref in_script) =
    (span_id in_cookbook, name in_cookbook, kind in_cookbook,
     parent_ref in_cookbook) /\
    match readFileSync W (reads st) path with
    | Returns data =>
        fst script = Returns tt /\
        input in_script =
          (input in_cookbook ++
           [ {| role := "user";
                body := File {| att_data := data; att_filename := filename;
                                att_contentType := "application/pdf" |} |} ])%list /\
        output in_script = output in_cookbook /\
        metadata in_script = metadata in_cookbook
    | Throws e =>
        fst script = Throws e /\
        input in_script = [] /\ output in_script = None /\
        metadata in_script = []
    end.
Proof.
  cbv zeta.
  destruct st as [sp ac n t]. cbn [spans active reads trace].
  assert (Cookbook.logUserPrompt filename url prompt summary rootSpan
            base64String
            {| spans := sp; active := ac; reads := n; trace := t |} =
          (Returns tt,
           {| spans := sp ++
                 [ {| span_id := length sp; name := Some "user_prompt";
                      kind := Some "llm"; parent_ref := Some (resolved rootSpan);
                      input := [ {| role := "user"; body := Text prompt |} ];
                      output := Some summary;
                      metadata := [ ("filename", filename); ("url", url);
                                    ("base64String", base64String) ] |} ];
              active := ac; reads := n;
              trace :=
                SpanEnd (length sp) ::
                Log (length sp)
                  {| log_input := Some [ {| role := "user"; body := Text prompt |} ];
                     log_output := Some summary;
                     log_metadata := Some [ ("filename", filename); ("url", url);
                                            ("base64String", base64String) ] |} ::
                SetAttributes (length sp)
                  {| attr_name := Some "user_prompt"; attr_type := Some "llm";
                     attr_parent := Some (resolved rootSpan) |} ::
                SpanStart (length sp) :: t |})) as ->.
  { cbv [Cookbook.logUserPrompt]. run_from. tidy_store. reflexivity. }
  cbn [fst snd reads trace filter is_file_read].
  repeat (split; [reflexivity|]).
  run_from. cbv [new_Attachment].
  destruct (readFileSync W n (path_join [cwd W; "pdfs"; filename])) as [data|e];
    run_from; tidy_store; cbn [fst snd]; rewrite !newest_last;
    (eexists _, _; repeat (split; [reflexivity|]); repeat split).
Qed.

(** X14.  In a run only the root span is exported, at most once, and
    the export is the step right before the request to the service. *)
Theorem root_is_exported_once_before_the_request (W : World) (st : state) :
  is_run W st ->
  (forall id slug, In (Exported id slug) (history st) ->
                   id = 0 /\ slug = export_id W 0) /\
  length (filter is_exported (history st)) <= 1 /\
  (forall req,
      In (Request req) (history st) ->
      exists earlier later,
        history st =
        (earlier ++ Exported 0 (export_id W 0) :: Request req :: later)%list).
Proof.
  intros Hrun.
  destruct (is_run_final W st Hrun)
    as (pdfFile & sc & before & after & _ & _ & -> & Hconsole).
  rewrite forallb_app in Hconsole.
  apply andb_true_iff in Hconsole as [Hbefore Hafter].
  assert (forall e, In e (before ++ events_of W pdfFile sc ++ after) ->
                    is_console e = false ->
                    In e (events_of W pdfFile sc)) as Hcore.
  { intros e Hin He.
    rewrite forallb_forall in Hbefore, Hafter.
    apply in_app_or in Hin as [Hin|Hin];
      [apply Hbefore in Hin; congruence|].
    apply in_app_or in Hin as [Hin|Hin]; [exact Hin|].
    apply Hafter in Hin. congruence. }
  split; [|split].
  - intros id slug Hin. apply Hcore in Hin; [|reflexivity].
    destruct sc; cbn in Hin;
      repeat (destruct Hin as [Hin|Hin];
              [try discriminate; injection Hin as <- <-; now split|]);
      contradiction.
  - rewrite !filter_app.
    rewrite (filter_console is_exported before),
            (filter_console is_exported after);
      try assumption; try reflexivity.
    rewrite app_nil_r. cbn [app].
    destruct sc; cbn; lia.
  - intros req Hin. apply Hcore in Hin; [|reflexivity].
    destruct sc;
      cbn [events_of opening asking reporting app In] in Hin;
      repeat (destruct Hin as [Hin|Hin];
              [try discriminate; injection Hin as <-|]);
      try contradiction;
      (eexists (before ++ opening pdfFile (Returns bs) ++ [_])%list, _;
       cbn [events_of opening asking reporting app];
       rewrite <- !app_assoc; cbn [app]; reflexivity).
Qed.

Lemma root_is_exported_once_before_the_request_witness :
  is_run calm_world (snd (generateSummary calm_world init)) /\
  length (filter is_exported
            (history (snd (generateSummary calm_world init)))) <= 1.
Proof.
  split.
  - apply run_of_script.
  - apply (root_is_exported_once_before_the_request calm_world _
             (run_of_script calm_world)).
Defined.

(** X15.  When the completion call throws, the root span has its name
    and no output; the run is the read, the naming, the export, the one
    request and its failure. *)
Theorem failed_completion_leaves_a_named_root (W : World)
    (pdfFile : pdf_file) (bs : list byte) (e : js_error) :
  readFileSync W 0 (pdf_path pdfFile) = Returns bs ->
  asked W pdfFile bs = Throws e ->
  exists st,
    processPdf W pdfFile init = (Throws e, st) /\
    spans st =
      [ {| span_id := 0; name := Some (pdf_filename pdfFile); kind := None;
           parent_ref := None; input := []; output := None;
           metadata := [] |} ] /\
    history st =
      [ SpanStart 0;
        Console LevelLog [AStr ("Processing " ++ pdf_filename pdfFile ++ "...")];
        FileRead (pdf_path pdfFile) (Returns bs);
        SetAttributes 0
          {| attr_name := Some (pdf_filename pdfFile); attr_type := None;
             attr_parent := None |};
        Exported 0 (export_id W 0);
        Request (completion_request pdfFile (toString_base64 bs));
        Response (Throws e);
        SpanEnd 0 ].
Proof.
  intros H1 H2.
  assert (happens W pdfFile (CompletionFails bs e)) as Hsc by (cbn; auto).
  eexists.
  split; [exact (processPdf_init _ _ _ Hsc)|].
  split; reflexivity.
Qed.

Lemma failed_completion_leaves_a_named_root_witness :
  exists st,
    processPdf refusing_world (located refusing_world report) init =
      (Throws quota_exceeded, st) /\
    spans st =
      [ {| span_id := 0; name := Some "report.pdf"; kind := None;
           parent_ref := None; input := []; output := None;
           metadata := [] |} ] /\
    history st =
      [ SpanStart 0;
        Console LevelLog [AStr "Processing report.pdf..."];
        FileRead "/app/pdfs/report.pdf" (Returns pdf_bytes);
        SetAttributes 0
          {| attr_name := Some "report.pdf"; attr_type := None;
             attr_parent := None |};
        Exported 0 (export_id refusing_world 0);
        Request (completion_request (located refusing_world report)
                   (toString_base64 pdf_bytes));
        Response (Throws quota_exceeded);
        SpanEnd 0 ].
Proof.
  apply (failed_completion_leaves_a_named_root refusing_world
           (located refusing_world report) pdf_bytes quota_exceeded);
    reflexivity.
Defined.
